(** * react-media-recorder

    A shallow embedding of the two recorder front ends of the package:

    - the render-prop component [ReactMediaRecorder] (src/index.ts), and
    - the hook [useReactMediaRecorder] (the hook source file),

    together with the browser objects they drive.  Refs and React state
    cells become the fields of a [State] record; every handler is an
    action of a small state-and-trace monad, the trace recording the
    state setters and the host calls in program order.  What the host
    answers (promise outcomes, feature detection, object URLs) is read
    from a [Host] record passed to each handler. *)

From Stdlib Require Import Strings.Byte.
From stdpp Require Import base strings list option gmap pretty.

Set Default Proof Using "Type".

(** ** Actions: state passing with a trace of effects *)

Definition Eff (St Ev A : Type) : Type := St → A * St * list Ev.

Section Eff.
Context {St Ev : Type}.

Definition eff_ret {A} (a : A) : Eff St Ev A := λ s, (a, s, []).

Definition eff_bind {A B} (f : A → Eff St Ev B) (m : Eff St Ev A)
  : Eff St Ev B :=
  λ s, match m s with
       | (a, s1, t1) =>
           match f a s1 with
           | (b, s2, t2) => (b, s2, t1 ++ t2)
           end
       end.

Definition get : Eff St Ev St := λ s, (s, s, []).
Definition modify (f : St → St) : Eff St Ev unit := λ s, (tt, f s, []).
Definition emit (e : Ev) : Eff St Ev unit := λ s, (tt, s, [e]).

(** The state an action ends in, the effects it performed, its result. *)
Definition exec {A} (m : Eff St Ev A) (s : St) : St := (m s).1.2.
Definition effects {A} (m : Eff St Ev A) (s : St) : list Ev := (m s).2.
Definition result {A} (m : Eff St Ev A) (s : St) : A := (m s).1.1.
End Eff.

#[global] Instance Eff_ret {St Ev} : MRet (Eff St Ev) := @eff_ret St Ev.
#[global] Instance Eff_bind {St Ev} : MBind (Eff St Ev) := @eff_bind St Ev.

(** ** The host: streams, blobs, recorder objects, promise outcomes *)

Inductive TrackKind := audio_kind | video_kind.

#[global] Instance TrackKind_eq_dec : EqDecision TrackKind.
Proof. solve_decision. Defined.

Record MediaStreamTrack := mkTrack {
  track_id : nat;
  kind : TrackKind;
  enabled : bool;
}.

(** A [MediaStream] is its track set.  Tracks are kept by value: the only
    track field this code writes is [enabled] of audio tracks, and the
    only other holder of tracks of the current stream (the preview stream)
    holds video tracks. *)
Abbreviation MediaStream := (list MediaStreamTrack).

Definition getAudioTracks (s : MediaStream) : list MediaStreamTrack :=
  filter (λ t, kind t = audio_kind) s.

Definition getVideoTracks (s : MediaStream) : list MediaStreamTrack :=
  filter (λ t, kind t = video_kind) s.

(** [stream.addTrack(t)]: a track already in the set is not added again. *)
Definition addTrack (t : MediaStreamTrack) (s : MediaStream) : MediaStream :=
  if bool_decide (track_id t ∈ track_id <$> s) then s else s ++ [t].

(** [tracks.forEach(t => stream.addTrack(t))] *)
Definition addTracks (ts : list MediaStreamTrack) (s : MediaStream) : MediaStream :=
  foldl (λ acc t, addTrack t acc) s ts.

(** [tracks.forEach(t => (t.enabled = v))] over the audio tracks of [s]. *)
Definition setAudioEnabled (v : bool) (s : MediaStream) : MediaStream :=
  (λ t, if bool_decide (kind t = audio_kind)
        then {| track_id := track_id t; kind := kind t; enabled := v |}
        else t) <$> s.

Record Blob := mkBlob {
  blob_data : list Byte.byte;
  blob_type : string;
}.

Record BlobPropertyBag := mkBag {
  bag_type : option string;
  bag_endings : option string;
}.

(** [new Blob(parts, options)]: the parts' bytes in order; the type is the
    option's [type], or the empty string. *)
Definition newBlob (parts : list Blob) (options : BlobPropertyBag) : Blob :=
  {| blob_data := concat (blob_data <$> parts);
     blob_type := default "" (bag_type options) |}.

(** [MediaTrackConstraints] objects, as their own enumerable keys and values. *)
Abbreviation MediaTrackConstraints := (list (string * string)).

(** A prop typed [boolean | MediaTrackConstraints]. *)
Inductive MediaSpec :=
| MBool (b : bool)
| MConstraints (c : MediaTrackConstraints).

(** JavaScript truthiness of such a value: an object is always truthy. *)
Definition truthy (m : MediaSpec) : bool :=
  match m with
  | MBool b => b
  | MConstraints _ => true
  end.

(** [a || b] on such values. *)
Definition js_or (a b : MediaSpec) : MediaSpec := if truthy a then a else b.

(** The argument of [getUserMedia] / [getDisplayMedia]; an absent member is
    [None]. *)
Record MediaStreamConstraints := mkConstraints {
  c_audio : option MediaSpec;
  c_video : option MediaSpec;
}.

Record MediaRecorderOptions := mkOptions {
  mimeType : option string;
}.

(** The [state] attribute of a host [MediaRecorder]. *)
Inductive RecordingState := rs_inactive | rs_recording | rs_paused.

#[global] Instance RecordingState_eq_dec : EqDecision RecordingState.
Proof. solve_decision. Defined.

Record MediaRecorder := mkRecorder {
  rec_state : RecordingState;
}.

(** How a host promise settles: with a value, or rejected with an error
    whose [name] is given. *)
Inductive Settled (A : Type) :=
| Fulfilled (a : A)
| Rejected (name : string).
Arguments Fulfilled {A} a.
Arguments Rejected {A} name.

(** The host as the handlers see it during one call. *)
Record Host := mkHost {
  has_MediaRecorder : bool;       (* [window.MediaRecorder] is truthy *)
  has_getDisplayMedia : bool;     (* [mediaDevices.getDisplayMedia] is truthy *)
  getSupportedConstraints : list string;   (* the keys the host marks true *)
  isTypeSupported : string → bool;
  getDisplayMedia : MediaStreamConstraints → Settled MediaStream;
  getUserMedia : MediaStreamConstraints → Settled MediaStream;
  createObjectURL : Blob → string;
  capturedAudio : list Byte.byte; (* what the in-process encoder has captured *)
}.

(** A value thrown synchronously. *)
Inductive Thrown :=
| Error (message : string)
| ReferenceError (identifier : string).

(** ** The error table

    [enum RecorderErrors], identical in both files, used as a map from the
    key held in the [error] state cell to the string shown to the caller.
    [RecorderErrors !! k = None] is the [undefined] of a missed lookup.
    The table holds the members the enum declares. *)
Definition RecorderErrors : gmap string string :=
  list_to_map
    [ ("AbortError", "media_aborted");
      ("NotAllowedError", "permission_denied");
      ("NotFoundError", "no_specified_media_found");
      ("NotReadableError", "media_in_use");
      ("OverconstrainedError", "invalid_media_constraints");
      ("TypeError", "no_constraints");
      ("NONE", "");
      ("NO_RECORDER", "recorder_error") ].

(** The effects a handler can perform, over the variant's status type. *)
Inductive Event (Status : Type) :=
| EvSetStatus (s : Status)
| EvSetError (key : string)
| EvSetIsAudioMuted (b : bool)
| EvSetMediaBlobUrl (u : option string)
| EvSetMediaBlob (b : Blob)
| EvGetDisplayMedia (c : MediaStreamConstraints)
| EvGetUserMedia (c : MediaStreamConstraints)
| EvNewMediaRecorder (stream : MediaStream)
| EvRecorderStart
| EvRecorderPause
| EvRecorderResume
| EvRecorderStop
| EvNewWebkitAudio
| EvWebkitStart
| EvWebkitStop
| EvOnStop (url : string)
| EvConsoleError (message : string).
Arguments EvSetStatus {Status} s.
Arguments EvSetError {Status} key.
Arguments EvSetIsAudioMuted {Status} b.
Arguments EvSetMediaBlobUrl {Status} u.
Arguments EvSetMediaBlob {Status} b.
Arguments EvGetDisplayMedia {Status} c.
Arguments EvGetUserMedia {Status} c.
Arguments EvNewMediaRecorder {Status} stream.
Arguments EvRecorderStart {Status}.
Arguments EvRecorderPause {Status}.
Arguments EvRecorderResume {Status}.
Arguments EvRecorderStop {Status}.
Arguments EvNewWebkitAudio {Status}.
Arguments EvWebkitStart {Status}.
Arguments EvWebkitStop {Status}.
Arguments EvOnStop {Status} url.
Arguments EvConsoleError {Status} message.

(** The props shared by both front ends (the render-prop component takes
    [render] besides), with the defaults of the destructuring pattern. *)
Record Props := mkProps {
  audio : MediaSpec;
  video : MediaSpec;
  blobPropertyBag : option BlobPropertyBag;
  screen : bool;
  mediaRecorderOptions : option MediaRecorderOptions;
}.

Definition defaultProps : Props :=
  {| audio := MBool true;
     video := MBool false;
     blobPropertyBag := None;
     screen := false;
     mediaRecorderOptions := None |}.

(** [requiredMedia] of [getMediaStream]:
    [typeof x === 'boolean' ? !!x : x] for each of audio and video. *)
Definition normalise (m : MediaSpec) : MediaSpec :=
  match m with
  | MBool b => MBool (negb (negb b))
  | MConstraints c => MConstraints c
  end.

Definition requiredMedia (p : Props) : MediaStreamConstraints :=
  {| c_audio := Some (normalise (audio p));
     c_video := Some (normalise (video p)) |}.

(** The argument of the display-media request: [{ video: video || true }]. *)
Definition displayMediaRequest (p : Props) : MediaStreamConstraints :=
  {| c_audio := None; c_video := Some (js_or (video p) (MBool true)) |}.

(** The argument of the separate microphone request: [{ audio }]. *)
Definition microphoneRequest (p : Props) : MediaStreamConstraints :=
  {| c_audio := Some (audio p); c_video := None |}.

(** [checkConstraints] of the setup effect: the keys of the constraint
    object the host does not list, and the diagnostic printed for them. *)
Definition unSupportedConstraints (h : Host) (mediaType : MediaTrackConstraints)
  : list string :=
  filter (λ k, k ∉ getSupportedConstraints h) (mediaType.*1).

Definition constraintsMessage (keys : list string) : string :=
  "The constraints " +:+ String.concat "," keys +:+
  " doesn't support on this browser. Please check your ReactMediaRecorder component.".

Definition mimeMessage : string :=
  "The specified MIME type you supplied for MediaRecorder doesn't support this browser".

(** Truthiness of [mediaRecorderOptions && mediaRecorderOptions.mimeType]:
    an options object whose [mimeType] is a non-empty string. *)
Definition requestedMimeType (p : Props) : option string :=
  match mediaRecorderOptions p with
  | Some o =>
      match mimeType o with
      | Some m => if bool_decide (m = "") then None else Some m
      | None => None
      end
  | None => None
  end.

(** The blob options computed by [onRecordingStop] (the same expression in
    both files):
    [blobPropertyBag || video ? { type: 'video/mp4' } : { type: 'audio/wav' }].
    [||] binds tighter than [? :], so the condition is
    [blobPropertyBag || video] and the bag itself is never the result. *)
Definition blobProperty (p : Props) : BlobPropertyBag :=
  if bool_decide (is_Some (blobPropertyBag p)) || truthy (video p)
  then {| bag_type := Some "video/mp4"; bag_endings := None |}
  else {| bag_type := Some "audio/wav"; bag_endings := None |}.

(** ** The render-prop component (src/index.ts) *)

Module RenderProp.

Inductive StatusMessages :=
| idle | acquiring_media | recording | stopping | stopped.

(** The refs ([mediaRecorder], [mediaChunks], [mediaStream],
    [previewStream]) and the state cells of the component. *)
Record State := mkState {
  mediaRecorder : option MediaRecorder;
  mediaChunks : list Blob;
  mediaStream : option MediaStream;
  previewStream : option MediaStream;
  status : StatusMessages;
  isAudioMuted : bool;
  mediaBlobUrl : option string;
  mediaBlob : option Blob;
  error : string;
}.

(** The component as first rendered. *)
Definition initial : State :=
  {| mediaRecorder := None; mediaChunks := []; mediaStream := None;
     previewStream := None; status := idle; isAudioMuted := false;
     mediaBlobUrl := None; mediaBlob := None; error := "NONE" |}.

Definition with_mediaRecorder v (s : State) : State :=
  mkState v (mediaChunks s) (mediaStream s) (previewStream s) (status s)
          (isAudioMuted s) (mediaBlobUrl s) (mediaBlob s) (error s).
Definition with_mediaChunks v (s : State) : State :=
  mkState (mediaRecorder s) v (mediaStream s) (previewStream s) (status s)
          (isAudioMuted s) (mediaBlobUrl s) (mediaBlob s) (error s).
Definition with_mediaStream v (s : State) : State :=
  mkState (mediaRecorder s) (mediaChunks s) v (previewStream s) (status s)
          (isAudioMuted s) (mediaBlobUrl s) (mediaBlob s) (error s).
Definition with_previewStream v (s : State) : State :=
  mkState (mediaRecorder s) (mediaChunks s) (mediaStream s) v (status s)
          (isAudioMuted s) (mediaBlobUrl s) (mediaBlob s) (error s).
Definition with_status v (s : State) : State :=
  mkState (mediaRecorder s) (mediaChunks s) (mediaStream s) (previewStream s) v
          (isAudioMuted s) (mediaBlobUrl s) (mediaBlob s) (error s).
Definition with_isAudioMuted v (s : State) : State :=
  mkState (mediaRecorder s) (mediaChunks s) (mediaStream s) (previewStream s)
          (status s) v (mediaBlobUrl s) (mediaBlob s) (error s).
Definition with_mediaBlobUrl v (s : State) : State :=
  mkState (mediaRecorder s) (mediaChunks s) (mediaStream s) (previewStream s)
          (status s) (isAudioMuted s) v (mediaBlob s) (error s).
Definition with_mediaBlob v (s : State) : State :=
  mkState (mediaRecorder s) (mediaChunks s) (mediaStream s) (previewStream s)
          (status s) (isAudioMuted s) (mediaBlobUrl s) v (error s).
Definition with_error v (s : State) : State :=
  mkState (mediaRecorder s) (mediaChunks s) (mediaStream s) (previewStream s)
          (status s) (isAudioMuted s) (mediaBlobUrl s) (mediaBlob s) v.

Abbreviation Action := (Eff State (Event StatusMessages)).

(** The state setters. *)
Definition setStatus (v : StatusMessages) : Action unit :=
  modify (with_status v);; emit (EvSetStatus v).
Definition setError (key : string) : Action unit :=
  modify (with_error key);; emit (EvSetError key).
Definition setIsAudioMuted (b : bool) : Action unit :=
  modify (with_isAudioMuted b);; emit (EvSetIsAudioMuted b).
Definition setMediaBlobUrl (u : option string) : Action unit :=
  modify (with_mediaBlobUrl u);; emit (EvSetMediaBlobUrl u).
Definition setMediaBlob (b : Blob) : Action unit :=
  modify (with_mediaBlob (Some b));; emit (EvSetMediaBlob b).

(** The [try] block of [getMediaStream]: [Fulfilled tt] when it runs to
    its end, [Rejected name] when an awaited promise rejects. *)
Definition acquire (p : Props) (h : Host) : Action (Settled unit) :=
  if screen p then
    emit (EvGetDisplayMedia (displayMediaRequest p));;
    match getDisplayMedia h (displayMediaRequest p) with
    | Rejected name => mret (Rejected name)
    | Fulfilled stream =>
        if truthy (audio p) then
          emit (EvGetUserMedia (microphoneRequest p));;
          match getUserMedia h (microphoneRequest p) with
          | Rejected name => mret (Rejected name)
          | Fulfilled audioStream =>
              modify (with_mediaStream
                        (Some (addTracks (getAudioTracks audioStream) stream)));;
              mret (Fulfilled tt)
          end
        else
          modify (with_mediaStream (Some stream));;
          mret (Fulfilled tt)
    end
  else
    emit (EvGetUserMedia (requiredMedia p));;
    match getUserMedia h (requiredMedia p) with
    | Rejected name => mret (Rejected name)
    | Fulfilled stream =>
        modify (with_mediaStream (Some stream));;
        modify (with_previewStream (Some (getVideoTracks stream)));;
        mret (Fulfilled tt)
    end.

Definition getMediaStream (p : Props) (h : Host) : Action unit :=
  setStatus acquiring_media;;
  r ← acquire p h;
  match r with
  | Fulfilled _ => setStatus idle
  | Rejected name => setError name;; setStatus idle
  end.

Definition checkConstraints (h : Host) (m : MediaSpec) : Action unit :=
  match m with
  | MConstraints c =>
      if bool_decide (unSupportedConstraints h c = []) then mret tt
      else emit (EvConsoleError (constraintsMessage (unSupportedConstraints h c)))
  | MBool _ => mret tt
  end.

(** The setup effect.  [Some e]: it threw [e]; [None]: it ran to its
    end (the stream, if requested, is loaded by [getMediaStream]). *)
Definition useEffect (p : Props) (h : Host) : Action (option Thrown) :=
  if negb (has_MediaRecorder h) then
    mret (Some (Error "Unsupported Browser"))
  else if screen p && negb (has_getDisplayMedia h) then
    mret (Some (Error "This browser doesn't support screen capturing"))
  else
    checkConstraints h (audio p);;
    checkConstraints h (video p);;
    match requestedMimeType p with
    | Some m => if isTypeSupported h m then mret tt
                else emit (EvConsoleError mimeMessage)
    | None => mret tt
    end;;
    s ← get;
    match mediaStream s with
    | None => getMediaStream p h
    | Some _ => mret tt
    end;;
    mret None.

Definition startRecording (p : Props) (h : Host) : Action unit :=
  setError "NONE";;
  s ← get;
  match mediaStream s with
  | None => getMediaStream p h
  | Some _ => mret tt
  end;;
  s ← get;
  match mediaStream s with
  | Some stream =>
      modify (with_mediaChunks []);;
      setMediaBlobUrl None;;
      modify (with_mediaRecorder (Some {| rec_state := rs_inactive |}));;
      emit (EvNewMediaRecorder stream);;
      modify (with_mediaRecorder (Some {| rec_state := rs_recording |}));;
      emit EvRecorderStart;;
      setStatus recording
  | None => mret tt
  end.

(** [mediaRecorder.current.onerror] *)
Definition onRecorderError : Action unit :=
  setError "NO_RECORDER";; setStatus idle.

(** [ondataavailable] *)
Definition onRecordingActive (data : Blob) : Action unit :=
  modify (λ s, with_mediaChunks (mediaChunks s ++ [data]) s).

(** [onstop] *)
Definition onRecordingStop (p : Props) (h : Host) : Action unit :=
  s ← get;
  let blob := newBlob (mediaChunks s) (blobProperty p) in
  let url := createObjectURL h blob in
  setStatus stopped;;
  setMediaBlobUrl (Some url);;
  setMediaBlob blob;;
  emit (EvOnStop url).

Definition muteAudio (mute : bool) : Action unit :=
  setIsAudioMuted mute;;
  s ← get;
  match mediaStream s with
  | Some stream =>
      modify (with_mediaStream (Some (setAudioEnabled (negb mute) stream)))
  | None => mret tt
  end.

Definition stopRecording : Action unit :=
  s ← get;
  match mediaRecorder s with
  | Some _ =>
      setStatus stopping;;
      modify (with_mediaRecorder (Some {| rec_state := rs_inactive |}));;
      emit EvRecorderStop
  | None => mret tt
  end.

(** What [render] receives. *)
Record RenderProps := mkRenderProps {
  rp_error : option string;
  rp_mediaBlobUrl : option string;
  rp_mediaBlob : option Blob;
  rp_status : StatusMessages;
  rp_isAudioMuted : bool;
  rp_previewStream : option MediaStream;
}.

Definition render (s : State) : RenderProps :=
  {| rp_error := RecorderErrors !! error s;
     rp_mediaBlobUrl := mediaBlobUrl s;
     rp_mediaBlob := mediaBlob s;
     rp_status := status s;
     rp_isAudioMuted := isAudioMuted s;
     rp_previewStream := previewStream s |}.

(** The calls a mounted component receives, from its user
    ([CStart], [CStop], [CMute], [CUnMute]), from React ([CEffect]) and
    from the recorder ([CData], [CStopped], [CError]). *)
Inductive Call :=
| CEffect | CStart | CStop | CMute | CUnMute
| CData (data : Blob) | CStopped | CError.

Definition handle (p : Props) (h : Host) (c : Call) : Action unit :=
  match c with
  | CEffect => useEffect p h;; mret tt
  | CStart => startRecording p h
  | CStop => stopRecording
  | CMute => muteAudio true
  | CUnMute => muteAudio false
  | CData data => onRecordingActive data
  | CStopped => onRecordingStop p h
  | CError => onRecorderError
  end.

(** A session: calls in order, each with the host as it answers then. *)
Fixpoint run (p : Props) (cs : list (Host * Call)) : Action unit :=
  match cs with
  | [] => mret tt
  | (h, c) :: cs => handle p h c;; run p cs
  end.

End RenderProp.


(** ** The in-process encoder of the fallback path *)

(** Modelled from the spec: the class [WebkitAudio] (imported from
    './polyfill') is not among the source files.  The spec says of it: "an
    alternate in-process audio-only encoder is substituted transparently for
    start/stop, producing the same blob/URL/callback contract but only for
    audio", and "start/stop still yield a playable blob and URL via the
    alternate encoder".  Accordingly [startRecording(cb)] begins capturing
    and calls [cb]; [stopRecording(cb)] ends capturing and calls [cb] with
    one audio blob. *)
Record WebkitAudio := mkWebkitAudio {
  wa_recording : bool;
}.

(** Modelled from the spec: [new WebkitAudio({})], an encoder that is not
    capturing yet. *)
Definition newWebkitAudio : WebkitAudio := {| wa_recording := false |}.

(** Modelled from the spec: the encoder's [startRecording], which begins
    capturing (the caller's callback runs next). *)
Definition webkit_start (w : WebkitAudio) : WebkitAudio :=
  {| wa_recording := true |}.

(** Modelled from the spec: the encoder's [stopRecording], which ends
    capturing and hands one audio blob, made of what was captured, to the
    caller's callback ("the same blob/URL/callback contract but only for
    audio"). *)
Definition webkit_stop (h : Host) (w : WebkitAudio) : WebkitAudio * Blob :=
  ({| wa_recording := false |},
   {| blob_data := capturedAudio h; blob_type := "audio/wav" |}).

(** ** The hook (useReactMediaRecorder) *)

Module Hook.

Inductive StatusMessages :=
| media_aborted | permission_denied | no_specified_media_found
| media_in_use | invalid_media_constraints | no_constraints
| recorder_error | idle | acquiring_media | delayed_start
| recording | stopping | stopped.

(** The refs ([mediaRecorder], [fallBackAudio], [mediaChunks],
    [mediaStream]) and the state cells of the hook. *)
Record State := mkState {
  mediaRecorder : option MediaRecorder;
  fallBackAudio : option WebkitAudio;
  mediaChunks : list Blob;
  mediaStream : option MediaStream;
  status : StatusMessages;
  isAudioMuted : bool;
  mediaBlobUrl : option string;
  mediaBlob : option Blob;
  error : string;
}.

(** The hook as first rendered. *)
Definition initial : State :=
  {| mediaRecorder := None; fallBackAudio := None; mediaChunks := [];
     mediaStream := None; status := idle; isAudioMuted := false;
     mediaBlobUrl := None; mediaBlob := None; error := "NONE" |}.

Definition with_mediaRecorder v (s : State) : State :=
  mkState v (fallBackAudio s) (mediaChunks s) (mediaStream s) (status s)
          (isAudioMuted s) (mediaBlobUrl s) (mediaBlob s) (error s).
Definition with_fallBackAudio v (s : State) : State :=
  mkState (mediaRecorder s) v (mediaChunks s) (mediaStream s) (status s)
          (isAudioMuted s) (mediaBlobUrl s) (mediaBlob s) (error s).
Definition with_mediaChunks v (s : State) : State :=
  mkState (mediaRecorder s) (fallBackAudio s) v (mediaStream s) (status s)
          (isAudioMuted s) (mediaBlobUrl s) (mediaBlob s) (error s).
Definition with_mediaStream v (s : State) : State :=
  mkState (mediaRecorder s) (fallBackAudio s) (mediaChunks s) v (status s)
          (isAudioMuted s) (mediaBlobUrl s) (mediaBlob s) (error s).
Definition with_status v (s : State) : State :=
  mkState (mediaRecorder s) (fallBackAudio s) (mediaChunks s) (mediaStream s) v
          (isAudioMuted s) (mediaBlobUrl s) (mediaBlob s) (error s).
Definition with_isAudioMuted v (s : State) : State :=
  mkState (mediaRecorder s) (fallBackAudio s) (mediaChunks s) (mediaStream s)
          (status s) v (mediaBlobUrl s) (mediaBlob s) (error s).
Definition with_mediaBlobUrl v (s : State) : State :=
  mkState (mediaRecorder s) (fallBackAudio s) (mediaChunks s) (mediaStream s)
          (status s) (isAudioMuted s) v (mediaBlob s) (error s).
Definition with_mediaBlob v (s : State) : State :=
  mkState (mediaRecorder s) (fallBackAudio s) (mediaChunks s) (mediaStream s)
          (status s) (isAudioMuted s) (mediaBlobUrl s) v (error s).
Definition with_error v (s : State) : State :=
  mkState (mediaRecorder s) (fallBackAudio s) (mediaChunks s) (mediaStream s)
          (status s) (isAudioMuted s) (mediaBlobUrl s) (mediaBlob s) v.

Abbreviation Action := (Eff State (Event StatusMessages)).

(** The state setters. *)
Definition setStatus (v : StatusMessages) : Action unit :=
  modify (with_status v);; emit (EvSetStatus v).
Definition setError (key : string) : Action unit :=
  modify (with_error key);; emit (EvSetError key).
Definition setIsAudioMuted (b : bool) : Action unit :=
  modify (with_isAudioMuted b);; emit (EvSetIsAudioMuted b).
Definition setMediaBlobUrl (u : option string) : Action unit :=
  modify (with_mediaBlobUrl u);; emit (EvSetMediaBlobUrl u).
Definition setMediaBlob (b : Blob) : Action unit :=
  modify (with_mediaBlob (Some b));; emit (EvSetMediaBlob b).

(** [const isWebkit = !window.MediaRecorder] *)
Definition isWebkit (h : Host) : bool := negb (has_MediaRecorder h).

(** The [try] block of [getMediaStream]. *)
Definition acquire (p : Props) (h : Host) : Action (Settled unit) :=
  if screen p then
    emit (EvGetDisplayMedia (displayMediaRequest p));;
    match getDisplayMedia h (displayMediaRequest p) with
    | Rejected name => mret (Rejected name)
    | Fulfilled stream =>
        if truthy (audio p) then
          emit (EvGetUserMedia (microphoneRequest p));;
          match getUserMedia h (microphoneRequest p) with
          | Rejected name => mret (Rejected name)
          | Fulfilled audioStream =>
              modify (with_mediaStream
                        (Some (addTracks (getAudioTracks audioStream) stream)));;
              mret (Fulfilled tt)
          end
        else
          modify (with_mediaStream (Some stream));;
          mret (Fulfilled tt)
    end
  else
    emit (EvGetUserMedia (requiredMedia p));;
    match getUserMedia h (requiredMedia p) with
    | Rejected name => mret (Rejected name)
    | Fulfilled stream =>
        modify (with_mediaStream (Some stream));;
        mret (Fulfilled tt)
    end.

Definition getMediaStream (p : Props) (h : Host) : Action unit :=
  setStatus acquiring_media;;
  r ← acquire p h;
  match r with
  | Fulfilled _ => setStatus idle
  | Rejected name => setError name;; setStatus idle
  end.

Definition checkConstraints (h : Host) (m : MediaSpec) : Action unit :=
  match m with
  | MConstraints c =>
      if bool_decide (unSupportedConstraints h c = []) then mret tt
      else emit (EvConsoleError (constraintsMessage (unSupportedConstraints h c)))
  | MBool _ => mret tt
  end.

(** The MIME check of the setup effect.  It reads the global
    [MediaRecorder] without a guard; where the global is absent that
    access throws. *)
Definition checkMimeType (p : Props) (h : Host) : Action (option Thrown) :=
  match requestedMimeType p with
  | Some m =>
      if isWebkit h then mret (Some (ReferenceError "MediaRecorder"))
      else
        (if isTypeSupported h m then mret tt
         else emit (EvConsoleError mimeMessage));;
        mret None
  | None => mret None
  end.

(** The setup effect.  [Some e]: it threw [e]; [None]: it ran to its end. *)
Definition useEffect (p : Props) (h : Host) : Action (option Thrown) :=
  (if isWebkit h then
     modify (with_fallBackAudio (Some newWebkitAudio));; emit EvNewWebkitAudio
   else mret tt);;
  if screen p && negb (has_getDisplayMedia h) then
    mret (Some (Error "This browser doesn't support screen capturing"))
  else
    checkConstraints h (audio p);;
    checkConstraints h (video p);;
    r ← checkMimeType p h;
    match r with
    | Some e => mret (Some e)
    | None =>
        s ← get;
        match mediaStream s with
        | None => getMediaStream p h
        | Some _ => mret tt
        end;;
        mret None
    end.

Definition startRecording (p : Props) (h : Host) : Action unit :=
  if isWebkit h then
    setError "NONE";;
    s ← get;
    match fallBackAudio s with
    | Some w =>
        modify (with_fallBackAudio (Some (webkit_start w)));;
        emit EvWebkitStart;;
        setStatus recording
    | None => setError "NotFoundError"
    end
  else
    setError "NONE";;
    s ← get;
    match mediaStream s with
    | None => getMediaStream p h
    | Some _ => mret tt
    end;;
    s ← get;
    match mediaStream s with
    | Some stream =>
        modify (with_mediaRecorder (Some {| rec_state := rs_inactive |}));;
        emit (EvNewMediaRecorder stream);;
        modify (with_mediaRecorder (Some {| rec_state := rs_recording |}));;
        emit EvRecorderStart;;
        setStatus recording
    | None => mret tt
    end.

(** [mediaRecorder.current.onerror] *)
Definition onRecorderError : Action unit :=
  setError "NO_RECORDER";; setStatus idle.

(** [ondataavailable] *)
Definition onRecordingActive (data : Blob) : Action unit :=
  modify (λ s, with_mediaChunks (mediaChunks s ++ [data]) s).

(** [onstop] *)
Definition onRecordingStop (p : Props) (h : Host) : Action unit :=
  s ← get;
  let blob := newBlob (mediaChunks s) (blobProperty p) in
  let url := createObjectURL h blob in
  setStatus stopped;;
  setMediaBlob blob;;
  setMediaBlobUrl (Some url);;
  emit (EvOnStop url).

Definition muteAudio (mute : bool) : Action unit :=
  setIsAudioMuted mute;;
  s ← get;
  match mediaStream s with
  | Some stream =>
      modify (with_mediaStream (Some (setAudioEnabled (negb mute) stream)))
  | None => mret tt
  end.

Definition pauseRecording : Action unit :=
  s ← get;
  match mediaRecorder s with
  | Some r =>
      if bool_decide (rec_state r = rs_recording) then
        modify (with_mediaRecorder (Some {| rec_state := rs_paused |}));;
        emit EvRecorderPause
      else mret tt
  | None => mret tt
  end.

Definition resumeRecording : Action unit :=
  s ← get;
  match mediaRecorder s with
  | Some r =>
      if bool_decide (rec_state r = rs_paused) then
        modify (with_mediaRecorder (Some {| rec_state := rs_recording |}));;
        emit EvRecorderResume
      else mret tt
  | None => mret tt
  end.

Definition stopRecording (h : Host) : Action unit :=
  if isWebkit h then
    s ← get;
    match fallBackAudio s with
    | Some w =>
        modify (with_fallBackAudio (Some (webkit_stop h w).1));;
        emit EvWebkitStop;;
        let blob := (webkit_stop h w).2 in
        let url := createObjectURL h blob in
        setStatus stopped;;
        setMediaBlob blob;;
        setMediaBlobUrl (Some url);;
        emit (EvOnStop url)
    | None => mret tt
    end
  else
    s ← get;
    match mediaRecorder s with
    | Some _ =>
        setStatus stopping;;
        modify (with_mediaRecorder (Some {| rec_state := rs_inactive |}));;
        emit EvRecorderStop
    | None => mret tt
    end.

(** What the hook returns. *)
Record HookResult := mkHookResult {
  hr_error : option string;
  hr_mediaBlob : option Blob;
  hr_mediaBlobUrl : option string;
  hr_status : StatusMessages;
  hr_isAudioMuted : bool;
  hr_previewStream : option MediaStream;
}.

Definition hookResult (s : State) : HookResult :=
  {| hr_error := RecorderErrors !! error s;
     hr_mediaBlob := mediaBlob s;
     hr_mediaBlobUrl := mediaBlobUrl s;
     hr_status := status s;
     hr_isAudioMuted := isAudioMuted s;
     hr_previewStream := getVideoTracks <$> mediaStream s |}.

(** The calls a mounted hook receives. *)
Inductive Call :=
| CEffect | CStart | CStop | CPause | CResume | CMute | CUnMute
| CData (data : Blob) | CStopped | CError.

Definition handle (p : Props) (h : Host) (c : Call) : Action unit :=
  match c with
  | CEffect => useEffect p h;; mret tt
  | CStart => startRecording p h
  | CStop => stopRecording h
  | CPause => pauseRecording
  | CResume => resumeRecording
  | CMute => muteAudio true
  | CUnMute => muteAudio false
  | CData data => onRecordingActive data
  | CStopped => onRecordingStop p h
  | CError => onRecorderError
  end.

Fixpoint run (p : Props) (cs : list (Host * Call)) : Action unit :=
  match cs with
  | [] => mret tt
  | (h, c) :: cs => handle p h c;; run p cs
  end.

End Hook.

(** ** Vocabulary of the statements *)

(** The statuses an action wrote, in order. *)
Definition statusWrites {Status} (t : list (Event Status)) : list Status :=
  omap (λ e, match e with EvSetStatus s => Some s | _ => None end) t.

(** The URLs the completion callback [onStop] was called with, in order. *)
Definition onStopCalls {Status} (t : list (Event Status)) : list string :=
  omap (λ e, match e with EvOnStop u => Some u | _ => None end) t.

(** A content type of the video family, and a blob bag that names one. *)
Definition is_video_type (t : string) : bool := String.prefix "video/" t.

Definition video_capable (b : BlobPropertyBag) : bool :=
  from_option is_video_type false (bag_type b).


(** ** Hosts and props the statements are instantiated at *)

Definition microphoneTrack : MediaStreamTrack :=
  {| track_id := 1; kind := audio_kind; enabled := true |}.
Definition cameraTrack : MediaStreamTrack :=
  {| track_id := 2; kind := video_kind; enabled := true |}.
Definition displayTrack : MediaStreamTrack :=
  {| track_id := 3; kind := video_kind; enabled := true |}.

(** A browser with a recorder, granting every request. *)
Definition modernHost : Host :=
  {| has_MediaRecorder := true;
     has_getDisplayMedia := true;
     getSupportedConstraints := ["deviceId"; "echoCancellation"; "width"; "height"];
     isTypeSupported := λ m, bool_decide (m = "audio/webm");
     getDisplayMedia := λ _, Fulfilled [displayTrack];
     getUserMedia := λ c,
       Fulfilled (match c_video c with
                  | Some v => if truthy v then [microphoneTrack; cameraTrack]
                              else [microphoneTrack]
                  | None => [microphoneTrack]
                  end);
     createObjectURL := λ b, "blob:rec-" +:+ pretty (length (blob_data b));
     capturedAudio := [] |}.

(** The same browser, every capture request rejected with an error of the
    given name. *)
Definition rejectingHost (name : string) : Host :=
  {| has_MediaRecorder := true;
     has_getDisplayMedia := true;
     getSupportedConstraints := getSupportedConstraints modernHost;
     isTypeSupported := isTypeSupported modernHost;
     getDisplayMedia := λ _, Rejected name;
     getUserMedia := λ _, Rejected name;
     createObjectURL := createObjectURL modernHost;
     capturedAudio := [] |}.

(** The user refusing access. *)
Definition denyingHost : Host := rejectingHost "NotAllowedError".

(** A browser without [window.MediaRecorder]. *)
Definition legacyHost : Host :=
  {| has_MediaRecorder := false;
     has_getDisplayMedia := false;
     getSupportedConstraints := getSupportedConstraints modernHost;
     isTypeSupported := λ _, false;
     getDisplayMedia := λ _, Rejected "TypeError";
     getUserMedia := getUserMedia modernHost;
     createObjectURL := createObjectURL modernHost;
     capturedAudio := [x52; x49; x46; x46] |}.

(** [{ screen: true }], everything else defaulted (so [video] is [false]). *)
Definition screenProps : Props :=
  {| audio := MBool true; video := MBool false; blobPropertyBag := None;
     screen := true; mediaRecorderOptions := None |}.

(** [{ blobPropertyBag: { type: 'audio/wav' } }], everything else defaulted. *)
Definition audioBagProps : Props :=
  {| audio := MBool true; video := MBool false;
     blobPropertyBag := Some {| bag_type := Some "audio/wav"; bag_endings := None |};
     screen := false; mediaRecorderOptions := None |}.

Definition chunkA : Blob := {| blob_data := [x01; x02]; blob_type := "audio/webm" |}.
Definition chunkB : Blob := {| blob_data := [x03]; blob_type := "audio/webm" |}.

(** One recording cycle on [modernHost]: start, one chunk, stop, and the
    recorder's stop notification. *)
Definition rpCycle (data : Blob) : list (Host * RenderProp.Call) :=
  [ (modernHost, RenderProp.CStart); (modernHost, RenderProp.CData data);
    (modernHost, RenderProp.CStop); (modernHost, RenderProp.CStopped) ].

Definition hookCycle (data : Blob) : list (Host * Hook.Call) :=
  [ (modernHost, Hook.CStart); (modernHost, Hook.CData data);
    (modernHost, Hook.CStop); (modernHost, Hook.CStopped) ].

(** ** Further vocabulary: what a trace or a session contains *)

(** The capture requests an action sent to the host, in order. *)
Inductive CaptureRequest :=
| DisplayMedia (c : MediaStreamConstraints)
| UserMedia (c : MediaStreamConstraints).

Definition captureRequests {Status} (t : list (Event Status))
  : list CaptureRequest :=
  omap (λ e, match e with
             | EvGetDisplayMedia c => Some (DisplayMedia c)
             | EvGetUserMedia c => Some (UserMedia c)
             | _ => None
             end) t.

(** The uses of the host recorder (construction and method calls). *)
Definition recorderCalls {Status} (t : list (Event Status))
  : list (Event Status) :=
  omap (λ e, match e with
             | EvNewMediaRecorder _ | EvRecorderStart | EvRecorderPause
             | EvRecorderResume | EvRecorderStop => Some e
             | _ => None
             end) t.

(** The messages printed with [console.error]. *)
Definition consoleErrors {Status} (t : list (Event Status)) : list string :=
  omap (λ e, match e with EvConsoleError m => Some m | _ => None end) t.

(** The error keys written with [setError]. *)
Definition errorWrites {Status} (t : list (Event Status)) : list string :=
  omap (λ e, match e with EvSetError k => Some k | _ => None end) t.

(** [dataavailable] events delivering the given chunks, one after another. *)
Definition rpData (h : Host) (ds : list Blob) : list (Host * RenderProp.Call) :=
  (λ d, (h, RenderProp.CData d)) <$> ds.

Definition hookData (h : Host) (ds : list Blob) : list (Host * Hook.Call) :=
  (λ d, (h, Hook.CData d)) <$> ds.

(** The chunks a session delivers, and the number of its stop notifications. *)
Definition rpStopNotifications (cs : list (Host * RenderProp.Call)) : nat :=
  length (omap (λ hc, match hc.2 with
                      | RenderProp.CStopped => Some tt
                      | _ => None
                      end) cs).

Definition hookDelivered (cs : list (Host * Hook.Call)) : list Blob :=
  omap (λ hc, match hc.2 with Hook.CData d => Some d | _ => None end) cs.

Definition hookStopNotifications (cs : list (Host * Hook.Call)) : nat :=
  length (omap (λ hc, match hc.2 with
                      | Hook.CStopped => Some tt
                      | _ => None
                      end) cs).

(** Audio with a device constraint, and a requested MIME type. *)
Definition constrainedProps : Props :=
  {| audio := MConstraints [("deviceId", "default")]; video := MBool false;
     blobPropertyBag := None; screen := false;
     mediaRecorderOptions := Some {| mimeType := Some "audio/webm" |} |}.

(** A host whose capture requests, when rejected, carry a name that is a
    key of the error table. *)
Definition rejectsWithKnownNames (h : Host) : Prop :=
  ∀ c name,
    getUserMedia h c = Rejected name ∨ getDisplayMedia h c = Rejected name →
    is_Some (RecorderErrors !! name).

(** A browser that shares the screen but refuses the microphone. *)
Definition micDeniedHost : Host :=
  {| has_MediaRecorder := true;
     has_getDisplayMedia := true;
     getSupportedConstraints := getSupportedConstraints modernHost;
     isTypeSupported := isTypeSupported modernHost;
     getDisplayMedia := λ _, Fulfilled [displayTrack];
     getUserMedia := λ _, Rejected "NotAllowedError";
     createObjectURL := createObjectURL modernHost;
     capturedAudio := [] |}.

(** A browser whose microphone request also returns the camera. *)
Definition cameraHost : Host :=
  {| has_MediaRecorder := true;
     has_getDisplayMedia := true;
     getSupportedConstraints := getSupportedConstraints modernHost;
     isTypeSupported := isTypeSupported modernHost;
     getDisplayMedia := λ _, Fulfilled [displayTrack];
     getUserMedia := λ _, Fulfilled [microphoneTrack; cameraTrack];
     createObjectURL := createObjectURL modernHost;
     capturedAudio := [] |}.

(** ** Basic facts about actions *)

Section EffFacts.
Context {St Ev : Type}.
Implicit Types s : St.

Lemma exec_bind {A B} (m : Eff St Ev A) (f : A → Eff St Ev B) s :
  exec (m ≫= f) s = exec (f (result m s)) (exec m s).
Proof.
  unfold exec, result, mbind, Eff_bind, eff_bind.
  destruct (m s) as [[a s1] t1]; simpl.
  by destruct (f a s1) as [[b s2] t2].
Qed.

Lemma effects_bind {A B} (m : Eff St Ev A) (f : A → Eff St Ev B) s :
  effects (m ≫= f) s = effects m s ++ effects (f (result m s)) (exec m s).
Proof.
  unfold effects, exec, result, mbind, Eff_bind, eff_bind.
  destruct (m s) as [[a s1] t1]; simpl.
  by destruct (f a s1) as [[b s2] t2].
Qed.

Lemma result_bind {A B} (m : Eff St Ev A) (f : A → Eff St Ev B) s :
  result (m ≫= f) s = result (f (result m s)) (exec m s).
Proof.
  unfold exec, result, mbind, Eff_bind, eff_bind.
  destruct (m s) as [[a s1] t1]; simpl.
  by destruct (f a s1) as [[b s2] t2].
Qed.

End EffFacts.

(** Unfolds the monad so that an action applied to a state computes. *)
Ltac eff_red :=
  cbv [mbind mret Eff_bind Eff_ret eff_bind eff_ret modify emit get
       exec effects result] in *.

Ltac rp_unfold :=
  unfold RenderProp.handle, RenderProp.useEffect, RenderProp.startRecording,
    RenderProp.stopRecording, RenderProp.muteAudio, RenderProp.onRecordingStop,
    RenderProp.onRecordingActive, RenderProp.onRecorderError,
    RenderProp.checkConstraints,
    RenderProp.getMediaStream, RenderProp.acquire, RenderProp.setStatus,
    RenderProp.setError, RenderProp.setIsAudioMuted, RenderProp.setMediaBlobUrl,
    RenderProp.setMediaBlob in *.

Ltac hook_unfold :=
  unfold Hook.handle, Hook.useEffect, Hook.startRecording, Hook.stopRecording,
    Hook.pauseRecording, Hook.resumeRecording, Hook.checkMimeType,
    Hook.muteAudio, Hook.onRecordingStop, Hook.onRecordingActive,
    Hook.onRecorderError, Hook.checkConstraints,
    Hook.getMediaStream, Hook.acquire, Hook.setStatus, Hook.setError,
    Hook.setIsAudioMuted, Hook.setMediaBlobUrl, Hook.setMediaBlob in *.

(** Case analysis on membership in an explicit list. *)
Ltac elem_cases H :=
  repeat (apply elem_of_cons in H as [H | H]; [ try discriminate H | ]);
  try (by apply elem_of_nil in H).

(** Splits on what the host answers during an acquisition. *)
Ltac split_acquire p h :=
  destruct (screen p);
  [ destruct (getDisplayMedia h (displayMediaRequest p));
    [ destruct (truthy (audio p));
      [ destruct (getUserMedia h (microphoneRequest p)) | ]
    | ]
  | destruct (getUserMedia h (requiredMedia p)) ].

(** ** The error table *)

Lemma RecorderErrors_NotAllowedError :
  RecorderErrors !! "NotAllowedError" = Some "permission_denied".
Proof. reflexivity. Qed.

Lemma RecorderErrors_NONE : RecorderErrors !! "NONE" = Some "".
Proof. reflexivity. Qed.


(** ** Acquisition *)



(** What the [try] block returns does not depend on the component state. *)
Lemma rp_acquire_result (p : Props) (h : Host) (s s' : RenderProp.State) :
  result (RenderProp.acquire p h) s = result (RenderProp.acquire p h) s'.
Proof. rp_unfold; eff_red. by split_acquire p h. Qed.

Lemma hook_acquire_result (p : Props) (h : Host) (s s' : Hook.State) :
  result (Hook.acquire p h) s = result (Hook.acquire p h) s'.
Proof. hook_unfold; eff_red. by split_acquire p h. Qed.





(** ** Screen capture *)

(** [video || true] is truthy whatever [video] is. *)
Lemma displayMediaRequest_truthy (p : Props) :
  ∃ v, c_video (displayMediaRequest p) = Some v ∧ truthy v = true.
Proof.
  unfold displayMediaRequest, js_or; simpl.
  destruct (truthy (video p)) eqn:Hv; eauto.
Qed.

Lemma rp_getMediaStream_display (p : Props) (h : Host) (s : RenderProp.State) :
  screen p = true →
  (∃ rest, effects (RenderProp.getMediaStream p h) s
           = EvSetStatus RenderProp.acquiring_media
               :: EvGetDisplayMedia (displayMediaRequest p) :: rest)
  ∧ ∀ c, EvGetDisplayMedia c ∈ effects (RenderProp.getMediaStream p h) s →
         c = displayMediaRequest p.
Proof.
  intros Hscreen. rp_unfold; eff_red. rewrite Hscreen.
  destruct (getDisplayMedia h (displayMediaRequest p));
    [ destruct (truthy (audio p));
      [ destruct (getUserMedia h (microphoneRequest p)) | ] | ];
    simpl; (split; [eauto | intros c Hc; elem_cases Hc; congruence]).
Qed.

Lemma hook_getMediaStream_display (p : Props) (h : Host) (s : Hook.State) :
  screen p = true →
  (∃ rest, effects (Hook.getMediaStream p h) s
           = EvSetStatus Hook.acquiring_media
               :: EvGetDisplayMedia (displayMediaRequest p) :: rest)
  ∧ ∀ c, EvGetDisplayMedia c ∈ effects (Hook.getMediaStream p h) s →
         c = displayMediaRequest p.
Proof.
  intros Hscreen. hook_unfold; eff_red. rewrite Hscreen.
  destruct (getDisplayMedia h (displayMediaRequest p));
    [ destruct (truthy (audio p));
      [ destruct (getUserMedia h (microphoneRequest p)) | ] | ];
    simpl; (split; [eauto | intros c Hc; elem_cases Hc; congruence]).
Qed.

(** C9: in screen-capture mode every acquisition asks the display-media API
    for [{ video: video || true }], right after entering; that video
    constraint is truthy for every [video] prop, and is [true] when the
    caller passed [video: false].  Both front ends. *)
Theorem display_request_video_truthy (p : Props) (h : Host) :
  screen p = true →
  (∀ s : RenderProp.State,
     (∃ rest, effects (RenderProp.getMediaStream p h) s
              = EvSetStatus RenderProp.acquiring_media
                  :: EvGetDisplayMedia (displayMediaRequest p) :: rest)
     ∧ ∀ c, EvGetDisplayMedia c ∈ effects (RenderProp.getMediaStream p h) s →
            ∃ v, c_video c = Some v ∧ truthy v = true)
  ∧ (∀ s : Hook.State,
     (∃ rest, effects (Hook.getMediaStream p h) s
              = EvSetStatus Hook.acquiring_media
                  :: EvGetDisplayMedia (displayMediaRequest p) :: rest)
     ∧ ∀ c, EvGetDisplayMedia c ∈ effects (Hook.getMediaStream p h) s →
            ∃ v, c_video c = Some v ∧ truthy v = true)
  ∧ (video p = MBool false →
     c_video (displayMediaRequest p) = Some (MBool true)).
Proof.
  intros Hscreen. split; [| split].
  - intros s. destruct (rp_getMediaStream_display p h s Hscreen) as [Hhd Hall].
    split; [done |]. intros c Hc. rewrite (Hall c Hc).
    apply displayMediaRequest_truthy.
  - intros s. destruct (hook_getMediaStream_display p h s Hscreen) as [Hhd Hall].
    split; [done |]. intros c Hc. rewrite (Hall c Hc).
    apply displayMediaRequest_truthy.
  - intros Hv. unfold displayMediaRequest, js_or. by rewrite Hv.
Qed.

Lemma display_request_video_truthy_witness :
  effects (RenderProp.getMediaStream screenProps modernHost) RenderProp.initial
  = [ EvSetStatus RenderProp.acquiring_media;
      EvGetDisplayMedia {| c_audio := None; c_video := Some (MBool true) |};
      EvGetUserMedia {| c_audio := Some (MBool true); c_video := None |};
      EvSetStatus RenderProp.idle ]
  ∧ c_video (displayMediaRequest screenProps) = Some (MBool true).
Proof.
  split; [reflexivity |].
  apply (display_request_video_truthy screenProps modernHost); reflexivity.
Defined.

(** ** The preview stream of the render-prop component *)

(** A call either leaves [previewStream] as it was, or it is an acquisition
    through [getUserMedia(requiredMedia)] in non-screen mode, which stores
    the video tracks of the stream it obtained. *)
Lemma rp_handle_previewStream (p : Props) (h : Host) (c : RenderProp.Call)
    (s : RenderProp.State) :
  RenderProp.previewStream (exec (RenderProp.handle p h c) s)
  = RenderProp.previewStream s
  ∨ (screen p = false
     ∧ ∃ stream, getUserMedia h (requiredMedia p) = Fulfilled stream
                 ∧ RenderProp.previewStream (exec (RenderProp.handle p h c) s)
                   = Some (getVideoTracks stream)).
Proof.
  destruct c; rp_unfold; eff_red; simpl;
    repeat case_match; simplify_eq/=; eauto.
Qed.

Lemma rp_run_previewStream (p : Props) (cs : list (Host * RenderProp.Call))
    (s : RenderProp.State) :
  screen p = true →
  RenderProp.previewStream (exec (RenderProp.run p cs) s)
  = RenderProp.previewStream s.
Proof.
  intros Hscreen. revert s.
  induction cs as [| [h c] cs IH]; intros s; [done |].
  cbn [RenderProp.run]. rewrite exec_bind, IH.
  destruct (rp_handle_previewStream p h c s) as [-> | [Hno _]]; [done |].
  congruence.
Qed.

(** C10: in the render-prop component a call changes [previewStream] only
    when it acquires through the non-screen path, where it stores the video
    tracks of the user-media stream; a screen-capture acquisition leaves it
    as it was, so for a component mounted with [screen] set the
    [previewStream] handed to [render] is null after every session. *)
Theorem preview_stream_only_from_user_media (p : Props) :
  (∀ h c s,
     RenderProp.previewStream (exec (RenderProp.handle p h c) s)
     ≠ RenderProp.previewStream s →
     screen p = false
     ∧ ∃ stream, getUserMedia h (requiredMedia p) = Fulfilled stream
                 ∧ RenderProp.previewStream (exec (RenderProp.handle p h c) s)
                   = Some (getVideoTracks stream))
  ∧ (screen p = true →
     ∀ h s, RenderProp.previewStream (exec (RenderProp.getMediaStream p h) s)
            = RenderProp.previewStream s)
  ∧ (screen p = true →
     ∀ cs, RenderProp.rp_previewStream
             (RenderProp.render (exec (RenderProp.run p cs) RenderProp.initial))
           = None).
Proof.
  split; [| split].
  - intros h c s Hchanged.
    by destruct (rp_handle_previewStream p h c s) as [Hsame | Hnew].
  - intros Hscreen h s. rp_unfold; eff_red. rewrite Hscreen.
    destruct (getDisplayMedia h (displayMediaRequest p));
      [ destruct (truthy (audio p));
        [ destruct (getUserMedia h (microphoneRequest p)) | ] | ];
      reflexivity.
  - intros Hscreen cs. unfold RenderProp.render; simpl.
    by rewrite rp_run_previewStream.
Qed.

Lemma preview_stream_only_from_user_media_witness :
  RenderProp.mediaStream
    (exec (RenderProp.run screenProps
             [(modernHost, RenderProp.CEffect); (modernHost, RenderProp.CStart)])
          RenderProp.initial)
  = Some [displayTrack; microphoneTrack]
  ∧ RenderProp.rp_previewStream
      (RenderProp.render
         (exec (RenderProp.run screenProps
                  [(modernHost, RenderProp.CEffect); (modernHost, RenderProp.CStart)])
               RenderProp.initial))
    = None.
Proof.
  split; [reflexivity |].
  apply (preview_stream_only_from_user_media screenProps); reflexivity.
Defined.

(** ** Stopping *)



(** ** Pause and resume (hook) *)

(** C7: [pauseRecording] calls the recorder's [pause] exactly when a
    recorder exists and reports state [recording], [resumeRecording] calls
    [resume] exactly when it reports [paused]; in every other state the call
    changes nothing and calls nothing. *)
Theorem pause_resume_guarded (s : Hook.State) :
  (EvRecorderPause ∈ effects Hook.pauseRecording s
   ↔ rec_state <$> Hook.mediaRecorder s = Some rs_recording)
  ∧ (rec_state <$> Hook.mediaRecorder s = Some rs_recording →
     Hook.pauseRecording s
     = (tt, Hook.with_mediaRecorder (Some {| rec_state := rs_paused |}) s,
        [EvRecorderPause]))
  ∧ (rec_state <$> Hook.mediaRecorder s ≠ Some rs_recording →
     Hook.pauseRecording s = (tt, s, []))
  ∧ (EvRecorderResume ∈ effects Hook.resumeRecording s
     ↔ rec_state <$> Hook.mediaRecorder s = Some rs_paused)
  ∧ (rec_state <$> Hook.mediaRecorder s = Some rs_paused →
     Hook.resumeRecording s
     = (tt, Hook.with_mediaRecorder (Some {| rec_state := rs_recording |}) s,
        [EvRecorderResume]))
  ∧ (rec_state <$> Hook.mediaRecorder s ≠ Some rs_paused →
     Hook.resumeRecording s = (tt, s, [])).
Proof.
  unfold Hook.pauseRecording, Hook.resumeRecording; eff_red.
  destruct (Hook.mediaRecorder s) as [[st] |]; simpl.
  - destruct st; simpl; repeat split;
      try (intros H; elem_cases H; congruence);
      try (intros _; by apply list_elem_of_singleton);
      congruence.
  - repeat split; try (intros H; elem_cases H; congruence); congruence.
Qed.

Lemma pause_resume_guarded_witness :
  Hook.pauseRecording
    (Hook.with_mediaRecorder (Some {| rec_state := rs_recording |}) Hook.initial)
  = (tt, Hook.with_mediaRecorder (Some {| rec_state := rs_paused |}) Hook.initial,
     [EvRecorderPause])
  ∧ Hook.pauseRecording Hook.initial = (tt, Hook.initial, [])
  ∧ Hook.resumeRecording
      (Hook.with_mediaRecorder (Some {| rec_state := rs_paused |}) Hook.initial)
    = (tt, Hook.with_mediaRecorder (Some {| rec_state := rs_recording |}) Hook.initial,
       [EvRecorderResume])
  ∧ Hook.resumeRecording
      (Hook.with_mediaRecorder (Some {| rec_state := rs_recording |}) Hook.initial)
    = (tt, Hook.with_mediaRecorder (Some {| rec_state := rs_recording |}) Hook.initial,
       []).
Proof.
  split; [| split; [| split]].
  - apply (pause_resume_guarded
             (Hook.with_mediaRecorder (Some {| rec_state := rs_recording |}) Hook.initial)).
    reflexivity.
  - apply (pause_resume_guarded Hook.initial). discriminate.
  - apply (pause_resume_guarded
             (Hook.with_mediaRecorder (Some {| rec_state := rs_paused |}) Hook.initial)).
    reflexivity.
  - apply (pause_resume_guarded
             (Hook.with_mediaRecorder (Some {| rec_state := rs_recording |}) Hook.initial)).
    discriminate.
Defined.

(** ** Muting *)

Lemma setAudioEnabled_audio (v : bool) (s : MediaStream) :
  Forall (λ t, enabled t = v) (getAudioTracks (setAudioEnabled v s)).
Proof.
  unfold getAudioTracks, setAudioEnabled.
  induction s as [| t s IH]; [constructor |].
  rewrite fmap_cons, filter_cons.
  case_bool_decide as Hk; simpl.
  - rewrite decide_True by done. by constructor.
  - by rewrite decide_False.
Qed.

Lemma setAudioEnabled_ids (v : bool) (s : MediaStream) :
  track_id <$> setAudioEnabled v s = track_id <$> s
  ∧ kind <$> setAudioEnabled v s = kind <$> s.
Proof.
  unfold setAudioEnabled. rewrite <- !list_fmap_compose.
  split; apply list_fmap_ext; intros i t _; simpl; by case_bool_decide.
Qed.

Lemma setAudioEnabled_video (v : bool) (s : MediaStream) :
  getVideoTracks (setAudioEnabled v s) = getVideoTracks s.
Proof.
  unfold getVideoTracks, setAudioEnabled.
  induction s as [| t s IH]; [done |].
  rewrite fmap_cons, !filter_cons, IH.
  case_bool_decide as Hk; simpl; [| done].
  rewrite !decide_False; [done | congruence | congruence].
Qed.

(** C5, the claim as stated fails: with no stream, [muteAudio()] still
    flips the mute flag handed to the caller, in both front ends. *)
Lemma mute_without_stream_sets_flag :
  (RenderProp.mediaStream RenderProp.initial = None
   ∧ RenderProp.rp_isAudioMuted (RenderProp.render RenderProp.initial) = false
   ∧ RenderProp.rp_isAudioMuted
       (RenderProp.render (exec (RenderProp.muteAudio true) RenderProp.initial))
     = true)
  ∧ (Hook.mediaStream Hook.initial = None
     ∧ Hook.hr_isAudioMuted (Hook.hookResult Hook.initial) = false
     ∧ Hook.hr_isAudioMuted
         (Hook.hookResult (exec (Hook.muteAudio true) Hook.initial))
       = true).
Proof. repeat split. Qed.

(** C5, amended: [muteAudio()] (that is [muteAudio true]) sets [enabled] to
    false on every audio track of the current stream and [unMuteAudio()]
    ([muteAudio false]) sets it to true, the stream keeping its tracks and
    its video tracks untouched; with no stream, the call only records the
    requested value in the mute flag [isAudioMuted] and changes nothing
    else.  Both front ends. *)
Theorem mute_toggles_audio_tracks (mute : bool) :
  (∀ (s : RenderProp.State) stream,
     RenderProp.mediaStream s = Some stream →
     ∃ stream',
       RenderProp.mediaStream (exec (RenderProp.muteAudio mute) s) = Some stream'
       ∧ Forall (λ t, enabled t = negb mute) (getAudioTracks stream')
       ∧ track_id <$> stream' = track_id <$> stream
       ∧ kind <$> stream' = kind <$> stream
       ∧ getVideoTracks stream' = getVideoTracks stream)
  ∧ (∀ s : RenderProp.State,
     RenderProp.mediaStream s = None →
     RenderProp.muteAudio mute s
     = (tt, RenderProp.with_isAudioMuted mute s, [EvSetIsAudioMuted mute]))
  ∧ (∀ (s : Hook.State) stream,
     Hook.mediaStream s = Some stream →
     ∃ stream',
       Hook.mediaStream (exec (Hook.muteAudio mute) s) = Some stream'
       ∧ Forall (λ t, enabled t = negb mute) (getAudioTracks stream')
       ∧ track_id <$> stream' = track_id <$> stream
       ∧ kind <$> stream' = kind <$> stream
       ∧ getVideoTracks stream' = getVideoTracks stream)
  ∧ (∀ s : Hook.State,
     Hook.mediaStream s = None →
     Hook.muteAudio mute s
     = (tt, Hook.with_isAudioMuted mute s, [EvSetIsAudioMuted mute])).
Proof.
  split; [| split; [| split]].
  - intros s stream Hs. exists (setAudioEnabled (negb mute) stream).
    split.
    + rp_unfold; eff_red; simpl. by rewrite Hs.
    + split; [apply setAudioEnabled_audio |].
      split; [apply setAudioEnabled_ids |].
      split; [apply setAudioEnabled_ids | apply setAudioEnabled_video].
  - intros s Hs. rp_unfold; eff_red; simpl. by rewrite Hs.
  - intros s stream Hs. exists (setAudioEnabled (negb mute) stream).
    split.
    + hook_unfold; eff_red; simpl. by rewrite Hs.
    + split; [apply setAudioEnabled_audio |].
      split; [apply setAudioEnabled_ids |].
      split; [apply setAudioEnabled_ids | apply setAudioEnabled_video].
  - intros s Hs. hook_unfold; eff_red; simpl. by rewrite Hs.
Qed.

Lemma mute_toggles_audio_tracks_witness :
  (∃ stream',
     RenderProp.mediaStream
       (exec (RenderProp.muteAudio true)
             (RenderProp.with_mediaStream (Some [microphoneTrack; cameraTrack])
                                          RenderProp.initial))
     = Some stream'
     ∧ Forall (λ t, enabled t = false) (getAudioTracks stream')
     ∧ track_id <$> stream' = [1; 2]
     ∧ kind <$> stream' = [audio_kind; video_kind]
     ∧ getVideoTracks stream' = [cameraTrack])
  ∧ Hook.muteAudio false Hook.initial
    = (tt, Hook.with_isAudioMuted false Hook.initial, [EvSetIsAudioMuted false]).
Proof.
  destruct (mute_toggles_audio_tracks true) as (Hmute & _).
  destruct (mute_toggles_audio_tracks false) as (_ & _ & _ & Hunmute).
  split.
  - apply (Hmute _ [microphoneTrack; cameraTrack]). reflexivity.
  - apply Hunmute. reflexivity.
Defined.

(** ** Error names outside the table *)




(** ** The blob produced at stop *)


Lemma rp_onRecordingStop_blob (p : Props) (h : Host) (s : RenderProp.State) :
  RenderProp.mediaBlob (exec (RenderProp.onRecordingStop p h) s)
  = Some (newBlob (RenderProp.mediaChunks s) (blobProperty p))
  ∧ RenderProp.mediaBlobUrl (exec (RenderProp.onRecordingStop p h) s)
    = Some (createObjectURL h (newBlob (RenderProp.mediaChunks s) (blobProperty p)))
  ∧ RenderProp.status (exec (RenderProp.onRecordingStop p h) s) = RenderProp.stopped
  ∧ onStopCalls (effects (RenderProp.onRecordingStop p h) s)
    = [createObjectURL h (newBlob (RenderProp.mediaChunks s) (blobProperty p))].
Proof. by rp_unfold; eff_red. Qed.



(** C1, where the code departs from it: the caller records audio only and
    passes the blob bag [{ type: 'audio/wav' }], which names no video type;
    after one complete cycle the stored blob is typed [video/mp4], in both
    front ends. *)
Theorem audio_bag_yields_video_blob :
  truthy (video audioBagProps) = false
  ∧ video_capable <$> blobPropertyBag audioBagProps = Some false
  ∧ RenderProp.mediaBlob
      (exec (RenderProp.run audioBagProps (rpCycle chunkA)) RenderProp.initial)
    = Some {| blob_data := [x01; x02]; blob_type := "video/mp4" |}
  ∧ Hook.mediaBlob
      (exec (Hook.run audioBagProps (hookCycle chunkA)) Hook.initial)
    = Some {| blob_data := [x01; x02]; blob_type := "video/mp4" |}.
Proof. repeat split. Qed.

(** ** The chunk buffer across recording cycles *)

(** The render-prop component empties the buffer and clears the URL
    whenever a start gets as far as recording. *)
Lemma rp_startRecording_resets (p : Props) (h : Host) (s : RenderProp.State) :
  is_Some (RenderProp.mediaStream (exec (RenderProp.startRecording p h) s)) →
  RenderProp.mediaChunks (exec (RenderProp.startRecording p h) s) = []
  ∧ RenderProp.mediaBlobUrl (exec (RenderProp.startRecording p h) s) = None
  ∧ RenderProp.status (exec (RenderProp.startRecording p h) s)
    = RenderProp.recording.
Proof.
  rp_unfold; eff_red; simpl.
  destruct (RenderProp.mediaStream s) as [stream |] eqn:Hs; simpl.
  - rewrite Hs. done.
  - split_acquire p h; simpl; rewrite ?Hs; simpl; try done;
      rewrite Hs; by intros [? ?].
Qed.

(** X2: the hook's [startRecording] leaves the chunk buffer and the blob URL
    as they were, on every path. *)
Theorem hook_startRecording_keeps_buffer (p : Props) (h : Host) (s : Hook.State) :
  Hook.mediaChunks (exec (Hook.startRecording p h) s) = Hook.mediaChunks s
  ∧ Hook.mediaBlobUrl (exec (Hook.startRecording p h) s) = Hook.mediaBlobUrl s.
Proof.
  hook_unfold; eff_red; simpl.
  destruct (Hook.isWebkit h); simpl.
  - by destruct (Hook.fallBackAudio s).
  - destruct (Hook.mediaStream s) as [stream |] eqn:Hs; simpl.
    + by rewrite Hs.
    + split_acquire p h; simpl; rewrite ?Hs; by simpl.
Qed.

(** C2, where the code departs from it: in the hook, after a first cycle
    that buffered [chunkA], a second start leaves [chunkA] in the buffer and
    the first cycle's URL in place, and the blob of a second cycle that
    emitted only [chunkB] holds the bytes of both.  The render-prop
    component, on the same calls, empties the buffer, clears the URL, and
    produces a blob of [chunkB] alone. *)
Theorem hook_second_cycle_keeps_first_chunks :
  Hook.mediaChunks
    (exec (Hook.run defaultProps (hookCycle chunkA ++ [(modernHost, Hook.CStart)]))
          Hook.initial)
  = [chunkA]
  ∧ Hook.mediaBlobUrl
      (exec (Hook.run defaultProps (hookCycle chunkA ++ [(modernHost, Hook.CStart)]))
            Hook.initial)
    = Some "blob:rec-2"
  ∧ Hook.mediaBlob
      (exec (Hook.run defaultProps (hookCycle chunkA ++ hookCycle chunkB))
            Hook.initial)
    = Some {| blob_data := [x01; x02; x03]; blob_type := "audio/wav" |}
  ∧ RenderProp.mediaChunks
      (exec (RenderProp.run defaultProps
               (rpCycle chunkA ++ [(modernHost, RenderProp.CStart)]))
            RenderProp.initial)
    = []
  ∧ RenderProp.mediaBlobUrl
      (exec (RenderProp.run defaultProps
               (rpCycle chunkA ++ [(modernHost, RenderProp.CStart)]))
            RenderProp.initial)
    = None
  ∧ RenderProp.mediaBlob
      (exec (RenderProp.run defaultProps (rpCycle chunkA ++ rpCycle chunkB))
            RenderProp.initial)
    = Some {| blob_data := [x03]; blob_type := "audio/wav" |}.
Proof. repeat split. Qed.

(** ** Setup without a host recorder *)

(** The diagnostics of the setup effect leave the state alone. *)
Lemma hook_checkConstraints_frame (h : Host) (m : MediaSpec) (s : Hook.State) :
  exec (Hook.checkConstraints h m) s = s.
Proof.
  unfold Hook.checkConstraints. destruct m as [b | c]; [done |].
  by case_bool_decide.
Qed.

Lemma hook_checkMimeType_spec (p : Props) (h : Host) (s : Hook.State) :
  exec (Hook.checkMimeType p h) s = s
  ∧ result (Hook.checkMimeType p h) s
    = match requestedMimeType p with
      | Some _ => if Hook.isWebkit h then Some (ReferenceError "MediaRecorder")
                  else None
      | None => None
      end.
Proof.
  unfold Hook.checkMimeType. destruct (requestedMimeType p) as [m |]; [| done].
  destruct (Hook.isWebkit h); [done |].
  by destruct (isTypeSupported h m).
Qed.

(** An acquisition touches neither the recorder nor the encoder. *)
Lemma hook_getMediaStream_frame (p : Props) (h : Host) (s : Hook.State) :
  Hook.fallBackAudio (exec (Hook.getMediaStream p h) s) = Hook.fallBackAudio s
  ∧ Hook.mediaRecorder (exec (Hook.getMediaStream p h) s) = Hook.mediaRecorder s.
Proof. hook_unfold; eff_red. by split_acquire p h. Qed.

(** Without [window.MediaRecorder] the hook's setup installs the encoder
    before anything else.  It still throws when screen capture is requested
    and unavailable, and when a MIME type was requested (the MIME check
    reads the absent global). *)
Lemma hook_useEffect_legacy (p : Props) (h : Host) (s : Hook.State) :
  has_MediaRecorder h = false →
  Hook.fallBackAudio (exec (Hook.useEffect p h) s) = Some newWebkitAudio
  ∧ result (Hook.useEffect p h) s
    = if screen p && negb (has_getDisplayMedia h)
      then Some (Error "This browser doesn't support screen capturing")
      else match requestedMimeType p with
           | Some _ => Some (ReferenceError "MediaRecorder")
           | None => None
           end.
Proof.
  intros Hrec. unfold Hook.useEffect.
  assert (Hook.isWebkit h = true) as Hweb
    by (unfold Hook.isWebkit; by rewrite Hrec).
  rewrite Hweb, exec_bind, result_bind.
  set (s0 := exec _ s).
  assert (Hook.fallBackAudio s0 = Some newWebkitAudio) as Hs0 by done.
  clearbody s0.
  destruct (screen p && negb (has_getDisplayMedia h)); [done |].
  rewrite !exec_bind, !result_bind, !hook_checkConstraints_frame.
  destruct (hook_checkMimeType_spec p h s0) as [-> ->]. rewrite Hweb.
  destruct (requestedMimeType p); [done |].
  rewrite !exec_bind, !result_bind.
  change (exec get s0) with s0. change (result get s0) with s0.
  split; [| done].
  change (exec (mret None) ?x) with x.
  destruct (Hook.mediaStream s0); [done |].
  by rewrite (proj1 (hook_getMediaStream_frame p h s0)).
Qed.




(** ** Further facts about the two front ends *)

Lemma rp_run_app (p : Props) (a b : list (Host * RenderProp.Call))
    (s : RenderProp.State) :
  exec (RenderProp.run p (a ++ b)) s
  = exec (RenderProp.run p b) (exec (RenderProp.run p a) s).
Proof.
  revert s. induction a as [| [h c] a IH]; intros s; [done |].
  cbn [app RenderProp.run]. by rewrite !exec_bind, IH.
Qed.

Lemma rp_run_data (p : Props) (h : Host) (ds : list Blob) (s : RenderProp.State) :
  RenderProp.mediaChunks
    (exec (RenderProp.run p ((λ d, (h, RenderProp.CData d)) <$> ds)) s)
  = RenderProp.mediaChunks s ++ ds.
Proof.
  revert s. induction ds as [| d ds IH]; intros s.
  - by rewrite app_nil_r.
  - cbn [fmap list_fmap RenderProp.run]. rewrite exec_bind, IH.
    cbn [RenderProp.handle]. unfold RenderProp.onRecordingActive; eff_red; simpl.
    by rewrite <- app_assoc.
Qed.

(** X3: in the render-prop component, whatever an earlier cycle left
    behind, the blob of a cycle that got as far as recording holds exactly the
    chunks delivered during that cycle, in order. *)
Theorem rp_cycle_blob_has_only_its_chunks (p : Props) (h : Host)
    (ds : list Blob) (s : RenderProp.State) :
  is_Some (RenderProp.mediaStream (exec (RenderProp.startRecording p h) s)) →
  blob_data <$>
    RenderProp.mediaBlob
      (exec (RenderProp.run p
               ([(h, RenderProp.CStart)]
                ++ ((λ d, (h, RenderProp.CData d)) <$> ds)
                ++ [(h, RenderProp.CStop); (h, RenderProp.CStopped)]))
            s)
  = Some (concat (blob_data <$> ds)).
Proof.
  intros Hstream.
  destruct (rp_startRecording_resets p h s Hstream) as (Hchunks & _ & _).
  rewrite !rp_run_app.
  set (s1 := exec (RenderProp.run p [(h, RenderProp.CStart)]) s).
  assert (RenderProp.mediaChunks s1 = []) as Hs1.
  { subst s1. cbn [RenderProp.run RenderProp.handle]. by rewrite exec_bind. }
  clearbody s1.
  set (s2 := exec (RenderProp.run p _) s1).
  assert (RenderProp.mediaChunks s2 = ds) as Hs2.
  { subst s2. by rewrite rp_run_data, Hs1. }
  clearbody s2.
  cbn [RenderProp.run RenderProp.handle]. rewrite !exec_bind.
  set (s3 := exec RenderProp.stopRecording s2).
  assert (RenderProp.mediaChunks s3 = ds) as Hs3.
  { subst s3. unfold RenderProp.stopRecording, RenderProp.setStatus; eff_red.
    by destruct (RenderProp.mediaRecorder s2). }
  clearbody s3.
  change (exec (mret ()) ?x) with x.
  rewrite (proj1 (rp_onRecordingStop_blob p h s3)); simpl. by rewrite Hs3.
Qed.

Lemma rp_cycle_blob_has_only_its_chunks_witness :
  blob_data <$>
    RenderProp.mediaBlob
      (exec (RenderProp.run defaultProps
               ([(modernHost, RenderProp.CStart)]
                ++ ((λ d, (modernHost, RenderProp.CData d)) <$> [chunkB; chunkA])
                ++ [(modernHost, RenderProp.CStop);
                    (modernHost, RenderProp.CStopped)]))
            (exec (RenderProp.run defaultProps (rpCycle chunkA)) RenderProp.initial))
  = Some [x03; x01; x02].
Proof.
  apply (rp_cycle_blob_has_only_its_chunks defaultProps modernHost [chunkB; chunkA]).
  by eexists.
Defined.

(** X4: with [window.MediaRecorder] absent and a MIME type requested, the
    hook's setup throws from its MIME check (after installing the encoder),
    unless the screen-capture check has thrown before. *)
Theorem hook_setup_throws_on_mime_check (p : Props) (h : Host) (s : Hook.State) :
  has_MediaRecorder h = false →
  is_Some (requestedMimeType p) →
  screen p && negb (has_getDisplayMedia h) = false →
  result (Hook.useEffect p h) s = Some (ReferenceError "MediaRecorder")
  ∧ Hook.fallBackAudio (exec (Hook.useEffect p h) s) = Some newWebkitAudio.
Proof.
  intros Hrec [m Hm] Hscreen.
  destruct (hook_useEffect_legacy p h s Hrec) as [Hinstalled Hres].
  split; [| done]. by rewrite Hres, Hscreen, Hm.
Qed.

Lemma hook_setup_throws_on_mime_check_witness :
  Hook.useEffect
    {| audio := MBool true; video := MBool false; blobPropertyBag := None;
       screen := false;
       mediaRecorderOptions := Some {| mimeType := Some "audio/webm" |} |}
    legacyHost Hook.initial
  = (Some (ReferenceError "MediaRecorder"),
     Hook.with_fallBackAudio (Some newWebkitAudio) Hook.initial,
     [EvNewWebkitAudio])
  ∧ result
      (Hook.useEffect
         {| audio := MBool true; video := MBool false; blobPropertyBag := None;
            screen := false;
            mediaRecorderOptions := Some {| mimeType := Some "audio/webm" |} |}
         legacyHost)
      Hook.initial
    = Some (ReferenceError "MediaRecorder").
Proof.
  split; [reflexivity |].
  apply hook_setup_throws_on_mime_check; [reflexivity | by eexists | reflexivity].
Defined.

(** ** Starting: acquisition on demand *)

(** [typeof x === 'boolean' ? !!x : x] gives [x] back. *)
Lemma requiredMedia_as_given (p : Props) :
  requiredMedia p = {| c_audio := Some (audio p); c_video := Some (video p) |}.
Proof.
  unfold requiredMedia, normalise.
  by destruct (audio p) as [[] |], (video p) as [[] |].
Qed.

Lemma rp_start_trace (p : Props) (h : Host) (s : RenderProp.State) :
  statusWrites (effects (RenderProp.startRecording p h) s)
  = match RenderProp.mediaStream s with
    | Some _ => [RenderProp.recording]
    | None =>
        RenderProp.acquiring_media :: RenderProp.idle ::
        match result (RenderProp.acquire p h) s with
        | Fulfilled _ => [RenderProp.recording]
        | Rejected _ => []
        end
    end
  ∧ captureRequests (effects (RenderProp.startRecording p h) s)
    = match RenderProp.mediaStream s with
      | Some _ => []
      | None =>
          if screen p then
            DisplayMedia (displayMediaRequest p) ::
            match getDisplayMedia h (displayMediaRequest p) with
            | Fulfilled _ =>
                if truthy (audio p) then [UserMedia (microphoneRequest p)] else []
            | Rejected _ => []
            end
          else [UserMedia {| c_audio := Some (audio p); c_video := Some (video p) |}]
      end.
Proof.
  rewrite <- requiredMedia_as_given. rp_unfold; eff_red; simpl.
  destruct (RenderProp.mediaStream s) as [stream |] eqn:Hs; simpl.
  - by rewrite Hs.
  - split_acquire p h; simpl; rewrite ?Hs; done.
Qed.

Lemma hook_start_trace (p : Props) (h : Host) (s : Hook.State) :
  has_MediaRecorder h = true →
  statusWrites (effects (Hook.startRecording p h) s)
  = match Hook.mediaStream s with
    | Some _ => [Hook.recording]
    | None =>
        Hook.acquiring_media :: Hook.idle ::
        match result (Hook.acquire p h) s with
        | Fulfilled _ => [Hook.recording]
        | Rejected _ => []
        end
    end
  ∧ captureRequests (effects (Hook.startRecording p h) s)
    = match Hook.mediaStream s with
      | Some _ => []
      | None =>
          if screen p then
            DisplayMedia (displayMediaRequest p) ::
            match getDisplayMedia h (displayMediaRequest p) with
            | Fulfilled _ =>
                if truthy (audio p) then [UserMedia (microphoneRequest p)] else []
            | Rejected _ => []
            end
          else [UserMedia {| c_audio := Some (audio p); c_video := Some (video p) |}]
      end.
Proof.
  intros Hrec. rewrite <- requiredMedia_as_given.
  hook_unfold; unfold Hook.isWebkit; eff_red; rewrite Hrec; simpl.
  destruct (Hook.mediaStream s) as [stream |] eqn:Hs; simpl.
  - by rewrite Hs.
  - split_acquire p h; simpl; rewrite ?Hs; done.
Qed.

(** X5: [startRecording] acquires on demand.  With a stream already held
    it sends no capture request and writes only status [recording]; with
    none it runs exactly one acquisition (one [getUserMedia] with the audio
    and video props as given, or, in screen mode, one [getDisplayMedia]
    followed by at most one microphone request), and writes [recording]
    after [acquiring_media] and [idle] only if the acquisition succeeded.
    Render-prop component, and hook on a host with a recorder. *)
Theorem start_acquires_on_demand (p : Props) (h : Host) :
  (∀ s : RenderProp.State,
     statusWrites (effects (RenderProp.startRecording p h) s)
     = match RenderProp.mediaStream s with
       | Some _ => [RenderProp.recording]
       | None =>
           RenderProp.acquiring_media :: RenderProp.idle ::
           match result (RenderProp.acquire p h) s with
           | Fulfilled _ => [RenderProp.recording]
           | Rejected _ => []
           end
       end
     ∧ captureRequests (effects (RenderProp.startRecording p h) s)
       = match RenderProp.mediaStream s with
         | Some _ => []
         | None =>
             if screen p then
               DisplayMedia (displayMediaRequest p) ::
               match getDisplayMedia h (displayMediaRequest p) with
               | Fulfilled _ =>
                   if truthy (audio p) then [UserMedia (microphoneRequest p)]
                   else []
               | Rejected _ => []
               end
             else [UserMedia {| c_audio := Some (audio p);
                                c_video := Some (video p) |}]
         end)
  ∧ (has_MediaRecorder h = true →
     ∀ s : Hook.State,
       statusWrites (effects (Hook.startRecording p h) s)
       = match Hook.mediaStream s with
         | Some _ => [Hook.recording]
         | None =>
             Hook.acquiring_media :: Hook.idle ::
             match result (Hook.acquire p h) s with
             | Fulfilled _ => [Hook.recording]
             | Rejected _ => []
             end
         end
       ∧ captureRequests (effects (Hook.startRecording p h) s)
         = match Hook.mediaStream s with
           | Some _ => []
           | None =>
               if screen p then
                 DisplayMedia (displayMediaRequest p) ::
                 match getDisplayMedia h (displayMediaRequest p) with
                 | Fulfilled _ =>
                     if truthy (audio p) then [UserMedia (microphoneRequest p)]
                     else []
                 | Rejected _ => []
                 end
               else [UserMedia {| c_audio := Some (audio p);
                                  c_video := Some (video p) |}]
           end).
Proof.
  split.
  - intros s. apply rp_start_trace.
  - intros Hrec s. by apply hook_start_trace.
Qed.

Lemma start_acquires_on_demand_witness :
  captureRequests (effects (Hook.startRecording screenProps modernHost) Hook.initial)
  = [ DisplayMedia {| c_audio := None; c_video := Some (MBool true) |};
      UserMedia {| c_audio := Some (MBool true); c_video := None |} ]
  ∧ statusWrites (effects (Hook.startRecording screenProps modernHost) Hook.initial)
    = [Hook.acquiring_media; Hook.idle; Hook.recording].
Proof.
  destruct (start_acquires_on_demand screenProps modernHost) as [_ Hhook].
  destruct (Hhook eq_refl Hook.initial) as [Hstatus Hrequests].
  split; [exact Hrequests | exact Hstatus].
Defined.

(** X6: in screen mode with audio requested, when the screen is shared but
    the microphone request is rejected, the acquisition stores no stream at
    all (the display stream just obtained is dropped), sets the error key
    to the rejection's name and ends idle.  Both front ends. *)
Theorem screen_without_microphone_stores_nothing (p : Props) (h : Host)
    (display : MediaStream) (name : string) :
  screen p = true →
  truthy (audio p) = true →
  getDisplayMedia h (displayMediaRequest p) = Fulfilled display →
  getUserMedia h (microphoneRequest p) = Rejected name →
  (∀ s : RenderProp.State,
     RenderProp.getMediaStream p h s
     = (tt,
        RenderProp.with_status RenderProp.idle
          (RenderProp.with_error name
             (RenderProp.with_status RenderProp.acquiring_media s)),
        [ EvSetStatus RenderProp.acquiring_media;
          EvGetDisplayMedia (displayMediaRequest p);
          EvGetUserMedia (microphoneRequest p);
          EvSetError name; EvSetStatus RenderProp.idle ])
     ∧ RenderProp.mediaStream (exec (RenderProp.getMediaStream p h) s)
       = RenderProp.mediaStream s)
  ∧ (∀ s : Hook.State,
     Hook.getMediaStream p h s
     = (tt,
        Hook.with_status Hook.idle
          (Hook.with_error name (Hook.with_status Hook.acquiring_media s)),
        [ EvSetStatus Hook.acquiring_media;
          EvGetDisplayMedia (displayMediaRequest p);
          EvGetUserMedia (microphoneRequest p);
          EvSetError name; EvSetStatus Hook.idle ])
     ∧ Hook.mediaStream (exec (Hook.getMediaStream p h) s) = Hook.mediaStream s).
Proof.
  intros Hscreen Haudio Hdisplay Hmic. split; intros s.
  - rp_unfold; eff_red. by rewrite Hscreen, Hdisplay, Haudio, Hmic.
  - hook_unfold; eff_red. by rewrite Hscreen, Hdisplay, Haudio, Hmic.
Qed.

Lemma screen_without_microphone_stores_nothing_witness :
  RenderProp.mediaStream
    (exec (RenderProp.getMediaStream screenProps micDeniedHost) RenderProp.initial)
  = None
  ∧ RenderProp.rp_error
      (RenderProp.render
         (exec (RenderProp.getMediaStream screenProps micDeniedHost)
               RenderProp.initial))
    = Some "permission_denied"
  ∧ Hook.mediaStream
      (exec (Hook.getMediaStream screenProps micDeniedHost) Hook.initial)
    = None.
Proof.
  destruct (screen_without_microphone_stores_nothing screenProps micDeniedHost
              [displayTrack] "NotAllowedError" eq_refl eq_refl eq_refl eq_refl)
    as [Hrp Hhook].
  split; [apply (Hrp RenderProp.initial) |].
  split; [reflexivity | apply (Hhook Hook.initial)].
Defined.

(** ** The merged screen stream *)

Lemma addTrack_prefix (t : MediaStreamTrack) (s : MediaStream) :
  s `prefix_of` addTrack t s.
Proof.
  unfold addTrack. case_bool_decide; [done |]. by apply prefix_app_r.
Qed.

Lemma addTracks_prefix (ts : list MediaStreamTrack) (s : MediaStream) :
  s `prefix_of` addTracks ts s.
Proof.
  unfold addTracks. revert s.
  induction ts as [| t ts IH]; intros s; [done |].
  simpl. etrans; [apply (addTrack_prefix t) | apply IH].
Qed.

Lemma addTracks_video (ts : list MediaStreamTrack) (s : MediaStream) :
  Forall (λ t, kind t = audio_kind) ts →
  getVideoTracks (addTracks ts s) = getVideoTracks s.
Proof.
  unfold addTracks, getVideoTracks. intros Hts. revert s.
  induction Hts as [| t ts Ht Hts IH]; intros s; [done |].
  simpl. rewrite IH. unfold addTrack. case_bool_decide; [done |].
  rewrite filter_app, filter_cons_False, filter_nil, app_nil_r; [done |].
  congruence.
Qed.

Lemma addTrack_ids (t : MediaStreamTrack) (s : MediaStream) :
  track_id t ∈ track_id <$> addTrack t s.
Proof.
  unfold addTrack. case_bool_decide; [done |].
  rewrite fmap_app, elem_of_app. right. by apply list_elem_of_singleton.
Qed.

Lemma addTracks_ids (ts : list MediaStreamTrack) (s : MediaStream) (t : MediaStreamTrack) :
  t ∈ ts → track_id t ∈ track_id <$> addTracks ts s.
Proof.
  unfold addTracks. revert s.
  induction ts as [| t' ts IH]; intros s Hin; [by apply elem_of_nil in Hin |].
  apply elem_of_cons in Hin as [-> | Hin]; simpl.
  - assert (track_id <$> addTrack t' s
            `prefix_of` track_id <$> foldl (λ acc x, addTrack x acc) (addTrack t' s) ts)
      as [k Hk].
    { destruct (addTracks_prefix ts (addTrack t' s)) as [k Hk].
      unfold addTracks in Hk. rewrite Hk, fmap_app. by apply prefix_app_r. }
    rewrite Hk, elem_of_app. left. apply addTrack_ids.
  - by apply IH.
Qed.

Lemma getAudioTracks_audio (s : MediaStream) :
  Forall (λ t, kind t = audio_kind) (getAudioTracks s).
Proof.
  unfold getAudioTracks. apply Forall_forall. intros t Ht.
  by apply list_elem_of_filter in Ht as [Hk _].
Qed.

(** X7: in screen mode with audio requested and both requests granted, the
    stream stored is the display stream followed by microphone tracks: the
    display stream's tracks come first and unchanged, every audio track of
    the microphone stream is present (by id), and no video track of the
    microphone stream is taken over, so the stored stream's video tracks
    are those of the display.  Both front ends. *)
Theorem screen_stream_merges_microphone_audio (p : Props) (h : Host)
    (display mic : MediaStream) :
  screen p = true →
  truthy (audio p) = true →
  getDisplayMedia h (displayMediaRequest p) = Fulfilled display →
  getUserMedia h (microphoneRequest p) = Fulfilled mic →
  ∃ merged,
    (∀ s : RenderProp.State,
       RenderProp.mediaStream (exec (RenderProp.getMediaStream p h) s)
       = Some merged)
    ∧ (∀ s : Hook.State,
       Hook.mediaStream (exec (Hook.getMediaStream p h) s) = Some merged)
    ∧ display `prefix_of` merged
    ∧ getVideoTracks merged = getVideoTracks display
    ∧ (∀ t, t ∈ getAudioTracks mic → track_id t ∈ track_id <$> merged).
Proof.
  intros Hscreen Haudio Hdisplay Hmic.
  exists (addTracks (getAudioTracks mic) display).
  split; [| split; [| split; [| split]]].
  - intros s. rp_unfold; eff_red. by rewrite Hscreen, Hdisplay, Haudio, Hmic.
  - intros s. hook_unfold; eff_red. by rewrite Hscreen, Hdisplay, Haudio, Hmic.
  - apply addTracks_prefix.
  - apply addTracks_video, getAudioTracks_audio.
  - intros t Ht. by apply addTracks_ids.
Qed.

Lemma screen_stream_merges_microphone_audio_witness :
  ∃ merged,
    (∀ s : RenderProp.State,
       RenderProp.mediaStream (exec (RenderProp.getMediaStream screenProps cameraHost) s)
       = Some merged)
    ∧ (∀ s : Hook.State,
       Hook.mediaStream (exec (Hook.getMediaStream screenProps cameraHost) s)
       = Some merged)
    ∧ [displayTrack] `prefix_of` merged
    ∧ getVideoTracks merged = [displayTrack]
    ∧ (∀ t, t ∈ [microphoneTrack] → track_id t ∈ track_id <$> merged).
Proof.
  apply (screen_stream_merges_microphone_audio screenProps cameraHost
           [displayTrack] [microphoneTrack; cameraTrack]); reflexivity.
Defined.

(** ** A start that succeeds *)

Lemma rp_start_success (p : Props) (h : Host) (s : RenderProp.State) :
  is_Some (RenderProp.mediaStream s)
  ∨ result (RenderProp.acquire p h) s = Fulfilled tt →
  RenderProp.status (exec (RenderProp.startRecording p h) s) = RenderProp.recording
  ∧ RenderProp.error (exec (RenderProp.startRecording p h) s) = "NONE"
  ∧ RenderProp.mediaRecorder (exec (RenderProp.startRecording p h) s)
    = Some {| rec_state := rs_recording |}
  ∧ is_Some (RenderProp.mediaStream (exec (RenderProp.startRecording p h) s))
  ∧ RenderProp.mediaBlob (exec (RenderProp.startRecording p h) s)
    = RenderProp.mediaBlob s.
Proof.
  rp_unfold; eff_red; simpl.
  destruct (RenderProp.mediaStream s) as [stream |] eqn:Hs; simpl.
  - intros _. rewrite Hs; simpl. by rewrite Hs.
  - intros [[? ?] | Hok]; [done |]. revert Hok.
    split_acquire p h; simpl; rewrite ?Hs; simpl; try done; eauto 10.
Qed.

Lemma hook_start_success (p : Props) (h : Host) (s : Hook.State) :
  has_MediaRecorder h = true →
  is_Some (Hook.mediaStream s) ∨ result (Hook.acquire p h) s = Fulfilled tt →
  Hook.status (exec (Hook.startRecording p h) s) = Hook.recording
  ∧ Hook.error (exec (Hook.startRecording p h) s) = "NONE"
  ∧ Hook.mediaRecorder (exec (Hook.startRecording p h) s)
    = Some {| rec_state := rs_recording |}
  ∧ is_Some (Hook.mediaStream (exec (Hook.startRecording p h) s))
  ∧ Hook.mediaBlob (exec (Hook.startRecording p h) s) = Hook.mediaBlob s.
Proof.
  intros Hrec. hook_unfold; unfold Hook.isWebkit; eff_red; rewrite Hrec; simpl.
  destruct (Hook.mediaStream s) as [stream |] eqn:Hs; simpl.
  - intros _. rewrite Hs; simpl. by rewrite Hs.
  - intros [[? ?] | Hok]; [done |]. revert Hok.
    split_acquire p h; simpl; rewrite ?Hs; simpl; try done; eauto 10.
Qed.

(** X8: a start that finds a stream, or whose acquisition succeeds, ends
    recording with a fresh recorder in state [recording] and with the error
    shown to the caller cleared to the empty code, whatever error an
    earlier failure had left; the last blob stays available.  Render-prop
    component, and hook on a host with a recorder. *)
Theorem successful_start_clears_error (p : Props) (h : Host) :
  (∀ s : RenderProp.State,
     is_Some (RenderProp.mediaStream s)
     ∨ result (RenderProp.acquire p h) s = Fulfilled tt →
     let s' := exec (RenderProp.startRecording p h) s in
     RenderProp.rp_status (RenderProp.render s') = RenderProp.recording
     ∧ RenderProp.rp_error (RenderProp.render s') = Some ""
     ∧ RenderProp.mediaRecorder s' = Some {| rec_state := rs_recording |}
     ∧ RenderProp.rp_mediaBlob (RenderProp.render s')
       = RenderProp.rp_mediaBlob (RenderProp.render s))
  ∧ (has_MediaRecorder h = true →
     ∀ s : Hook.State,
       is_Some (Hook.mediaStream s) ∨ result (Hook.acquire p h) s = Fulfilled tt →
       let s' := exec (Hook.startRecording p h) s in
       Hook.hr_status (Hook.hookResult s') = Hook.recording
       ∧ Hook.hr_error (Hook.hookResult s') = Some ""
       ∧ Hook.mediaRecorder s' = Some {| rec_state := rs_recording |}
       ∧ Hook.hr_mediaBlob (Hook.hookResult s')
         = Hook.hr_mediaBlob (Hook.hookResult s)).
Proof.
  split.
  - intros s Hok; cbv zeta.
    destruct (rp_start_success p h s Hok) as (Hst & Herr & Hrec & _ & Hblob).
    unfold RenderProp.render; simpl. by rewrite Hst, Herr, Hrec, Hblob.
  - intros Hhost s Hok; cbv zeta.
    destruct (hook_start_success p h s Hhost Hok) as (Hst & Herr & Hrec & _ & Hblob).
    unfold Hook.hookResult; simpl. by rewrite Hst, Herr, Hrec, Hblob.
Qed.

Lemma successful_start_clears_error_witness :
  RenderProp.rp_error
    (RenderProp.render
       (exec (RenderProp.getMediaStream defaultProps denyingHost) RenderProp.initial))
  = Some "permission_denied"
  ∧ RenderProp.rp_error
      (RenderProp.render
         (exec (RenderProp.startRecording defaultProps modernHost)
            (exec (RenderProp.getMediaStream defaultProps denyingHost)
                  RenderProp.initial)))
    = Some ""
  ∧ Hook.hr_error
      (Hook.hookResult
         (exec (Hook.startRecording defaultProps modernHost)
            (exec (Hook.getMediaStream defaultProps denyingHost) Hook.initial)))
    = Some "".
Proof.
  destruct (successful_start_clears_error defaultProps modernHost) as [Hrp Hhook].
  split; [reflexivity |]. split.
  - apply (Hrp (exec (RenderProp.getMediaStream defaultProps denyingHost)
                     RenderProp.initial)).
    by right.
  - apply (Hhook eq_refl
             (exec (Hook.getMediaStream defaultProps denyingHost) Hook.initial)).
    by right.
Defined.

(** ** Sessions *)

Lemma rp_effects_run_app (p : Props) (a b : list (Host * RenderProp.Call))
    (s : RenderProp.State) :
  effects (RenderProp.run p (a ++ b)) s
  = effects (RenderProp.run p a) s
    ++ effects (RenderProp.run p b) (exec (RenderProp.run p a) s).
Proof.
  revert s. induction a as [| [h c] a IH]; intros s; [done |].
  cbn [app RenderProp.run]. rewrite !effects_bind, !exec_bind, IH.
  by rewrite app_assoc.
Qed.

Lemma hook_run_app (p : Props) (a b : list (Host * Hook.Call)) (s : Hook.State) :
  exec (Hook.run p (a ++ b)) s = exec (Hook.run p b) (exec (Hook.run p a) s).
Proof.
  revert s. induction a as [| [h c] a IH]; intros s; [done |].
  cbn [app Hook.run]. by rewrite !exec_bind, IH.
Qed.

Lemma hook_effects_run_app (p : Props) (a b : list (Host * Hook.Call))
    (s : Hook.State) :
  effects (Hook.run p (a ++ b)) s
  = effects (Hook.run p a) s ++ effects (Hook.run p b) (exec (Hook.run p a) s).
Proof.
  revert s. induction a as [| [h c] a IH]; intros s; [done |].
  cbn [app Hook.run]. rewrite !effects_bind, !exec_bind, IH.
  by rewrite app_assoc.
Qed.

Lemma rp_run_cons (p : Props) h c (cs : list (Host * RenderProp.Call))
    (s : RenderProp.State) :
  exec (RenderProp.run p ((h, c) :: cs)) s
  = exec (RenderProp.run p cs) (exec (RenderProp.handle p h c) s)
  ∧ effects (RenderProp.run p ((h, c) :: cs)) s
    = effects (RenderProp.handle p h c) s
      ++ effects (RenderProp.run p cs) (exec (RenderProp.handle p h c) s).
Proof. cbn [RenderProp.run]. by rewrite exec_bind, effects_bind. Qed.

Lemma hook_run_cons (p : Props) h c (cs : list (Host * Hook.Call)) (s : Hook.State) :
  exec (Hook.run p ((h, c) :: cs)) s
  = exec (Hook.run p cs) (exec (Hook.handle p h c) s)
  ∧ effects (Hook.run p ((h, c) :: cs)) s
    = effects (Hook.handle p h c) s
      ++ effects (Hook.run p cs) (exec (Hook.handle p h c) s).
Proof. cbn [Hook.run]. by rewrite exec_bind, effects_bind. Qed.

(** Data events only append to the buffer. *)
Lemma rp_data_run (p : Props) (h : Host) (ds : list Blob) (s : RenderProp.State) :
  exec (RenderProp.run p (rpData h ds)) s
  = RenderProp.with_mediaChunks (RenderProp.mediaChunks s ++ ds) s
  ∧ effects (RenderProp.run p (rpData h ds)) s = [].
Proof.
  unfold rpData. revert s. induction ds as [| d ds IH]; intros s.
  - split; [| done]. destruct s. unfold RenderProp.with_mediaChunks; simpl.
    by rewrite app_nil_r.
  - cbn [fmap list_fmap].
    destruct (rp_run_cons p h (RenderProp.CData d)
                ((λ d0, (h, RenderProp.CData d0)) <$> ds) s) as [-> ->].
    destruct (IH (exec (RenderProp.handle p h (RenderProp.CData d)) s)) as [-> ->].
    split; [| done].
    unfold RenderProp.with_mediaChunks; simpl. by rewrite <- app_assoc.
Qed.

Lemma hook_data_run (p : Props) (h : Host) (ds : list Blob) (s : Hook.State) :
  exec (Hook.run p (hookData h ds)) s
  = Hook.with_mediaChunks (Hook.mediaChunks s ++ ds) s
  ∧ effects (Hook.run p (hookData h ds)) s = [].
Proof.
  unfold hookData. revert s. induction ds as [| d ds IH]; intros s.
  - split; [| done]. destruct s. unfold Hook.with_mediaChunks; simpl.
    by rewrite app_nil_r.
  - cbn [fmap list_fmap].
    destruct (hook_run_cons p h (Hook.CData d)
                ((λ d0, (h, Hook.CData d0)) <$> ds) s) as [-> ->].
    destruct (IH (exec (Hook.handle p h (Hook.CData d)) s)) as [-> ->].
    split; [| done].
    unfold Hook.with_mediaChunks; simpl. by rewrite <- app_assoc.
Qed.

Lemma rp_stop_with_recorder (s : RenderProp.State) :
  is_Some (RenderProp.mediaRecorder s) →
  RenderProp.stopRecording s
  = (tt,
     RenderProp.with_mediaRecorder (Some {| rec_state := rs_inactive |})
       (RenderProp.with_status RenderProp.stopping s),
     [EvSetStatus RenderProp.stopping; EvRecorderStop]).
Proof. intros [r Hr]. rp_unfold; eff_red. by rewrite Hr. Qed.

Lemma hook_stop_with_recorder (h : Host) (s : Hook.State) :
  has_MediaRecorder h = true →
  is_Some (Hook.mediaRecorder s) →
  Hook.stopRecording h s
  = (tt,
     Hook.with_mediaRecorder (Some {| rec_state := rs_inactive |})
       (Hook.with_status Hook.stopping s),
     [EvSetStatus Hook.stopping; EvRecorderStop]).
Proof.
  intros Hrec [r Hr]. hook_unfold; unfold Hook.isWebkit; eff_red.
  rewrite Hrec; simpl. by rewrite Hr.
Qed.

Lemma rp_start_no_onStop (p : Props) (h : Host) (s : RenderProp.State) :
  onStopCalls (effects (RenderProp.startRecording p h) s) = [].
Proof.
  rp_unfold; eff_red; simpl.
  destruct (RenderProp.mediaStream s) as [stream |] eqn:Hs; simpl.
  - by rewrite Hs.
  - split_acquire p h; simpl; rewrite ?Hs; done.
Qed.

Lemma hook_start_no_onStop (p : Props) (h : Host) (s : Hook.State) :
  onStopCalls (effects (Hook.startRecording p h) s) = [].
Proof.
  hook_unfold; eff_red; simpl. destruct (Hook.isWebkit h); simpl.
  - by destruct (Hook.fallBackAudio s).
  - destruct (Hook.mediaStream s) as [stream |] eqn:Hs; simpl.
    + by rewrite Hs.
    + split_acquire p h; simpl; rewrite ?Hs; done.
Qed.

Lemma rp_first_cycle (p : Props) (h : Host) (ds : list Blob) (s : RenderProp.State) :
  RenderProp.mediaStream s = None →
  result (RenderProp.acquire p h) s = Fulfilled tt →
  statusWrites
    (effects (RenderProp.run p
                ([(h, RenderProp.CStart)] ++ rpData h ds
                 ++ [(h, RenderProp.CStop); (h, RenderProp.CStopped)])) s)
  = [ RenderProp.acquiring_media; RenderProp.idle; RenderProp.recording;
      RenderProp.stopping; RenderProp.stopped ]
  ∧ onStopCalls
      (effects (RenderProp.run p
                  ([(h, RenderProp.CStart)] ++ rpData h ds
                   ++ [(h, RenderProp.CStop); (h, RenderProp.CStopped)])) s)
    = [createObjectURL h (newBlob ds (blobProperty p))]
  ∧ RenderProp.render
      (exec (RenderProp.run p
               ([(h, RenderProp.CStart)] ++ rpData h ds
                ++ [(h, RenderProp.CStop); (h, RenderProp.CStopped)])) s)
    = {| RenderProp.rp_error := Some "";
         RenderProp.rp_mediaBlobUrl :=
           Some (createObjectURL h (newBlob ds (blobProperty p)));
         RenderProp.rp_mediaBlob := Some (newBlob ds (blobProperty p));
         RenderProp.rp_status := RenderProp.stopped;
         RenderProp.rp_isAudioMuted := RenderProp.isAudioMuted s;
         RenderProp.rp_previewStream :=
           RenderProp.previewStream (exec (RenderProp.getMediaStream p h) s) |}.
Proof.
  intros Hnone Hok.
  destruct (rp_start_success p h s (or_intror Hok))
    as (Hst & Herr & Hrec & Hstream & _).
  destruct (rp_startRecording_resets p h s Hstream) as (Hchunks & _ & _).
  destruct (rp_start_trace p h s) as [Hwrites _]. rewrite Hnone, Hok in Hwrites.
  assert (RenderProp.isAudioMuted (exec (RenderProp.startRecording p h) s)
          = RenderProp.isAudioMuted s
          ∧ RenderProp.previewStream (exec (RenderProp.startRecording p h) s)
            = RenderProp.previewStream (exec (RenderProp.getMediaStream p h) s))
    as [Hmuted Hpreview].
  { clear -Hnone Hok. revert Hok. rp_unfold; eff_red; simpl. rewrite Hnone.
    split_acquire p h; simpl; try done; intros _;
      by repeat (case_match; simplify_eq/=). }
  rewrite !rp_effects_run_app, !rp_run_app.
  destruct (rp_run_cons p h RenderProp.CStart [] s) as [-> ->].
  cbn [RenderProp.handle].
  change (exec (RenderProp.run p []) ?x) with x.
  change (effects (RenderProp.run p []) ?x) with (@nil (Event RenderProp.StatusMessages)).
  rewrite app_nil_r.
  set (s1 := exec (RenderProp.startRecording p h) s) in *.
  destruct (rp_data_run p h ds s1) as [-> ->]. rewrite Hchunks.
  change ([] ++ ds) with ds.
  set (s2 := RenderProp.with_mediaChunks ds s1).
  destruct (rp_run_cons p h RenderProp.CStop [(h, RenderProp.CStopped)] s2) as [-> ->].
  cbn [RenderProp.handle].
  assert (exec RenderProp.stopRecording s2
          = RenderProp.with_mediaRecorder (Some {| rec_state := rs_inactive |})
              (RenderProp.with_status RenderProp.stopping s2)
          ∧ effects RenderProp.stopRecording s2
            = [EvSetStatus RenderProp.stopping; EvRecorderStop]) as [-> ->].
  { unfold exec, effects. rewrite (rp_stop_with_recorder s2); [done |].
    subst s2; simpl. by rewrite Hrec. }
  set (s3 := RenderProp.with_mediaRecorder _ _).
  destruct (rp_run_cons p h RenderProp.CStopped [] s3) as [-> ->].
  cbn [RenderProp.handle].
  change (exec (RenderProp.run p []) ?x) with x.
  change (effects (RenderProp.run p []) ?x) with (@nil (Event RenderProp.StatusMessages)).
  pose proof (rp_start_no_onStop p h s) as Hcalls. fold s1 in Hcalls.
  unfold statusWrites, onStopCalls in *. rewrite !omap_app, Hwrites, Hcalls.
  set (pv := RenderProp.previewStream (exec (RenderProp.getMediaStream p h) s)) in *.
  clearbody pv s1. clear Hok Hnone Hstream Hwrites Hcalls.
  subst s3 s2. rp_unfold; eff_red; simpl.
  unfold RenderProp.render; simpl. by rewrite Herr, Hmuted, Hpreview.
Qed.

Lemma hook_start_frame (p : Props) (h : Host) (s : Hook.State) :
  has_MediaRecorder h = true →
  Hook.mediaStream s = None →
  Hook.mediaChunks (exec (Hook.startRecording p h) s) = Hook.mediaChunks s
  ∧ Hook.isAudioMuted (exec (Hook.startRecording p h) s) = Hook.isAudioMuted s
  ∧ Hook.mediaStream (exec (Hook.startRecording p h) s)
    = Hook.mediaStream (exec (Hook.getMediaStream p h) s).
Proof.
  intros Hrec Hnone.
  hook_unfold; unfold Hook.isWebkit; eff_red; rewrite Hrec; simpl.
  rewrite Hnone.
  split_acquire p h; simpl; rewrite ?Hnone; done.
Qed.

Lemma hook_first_cycle (p : Props) (h : Host) (ds : list Blob) (s : Hook.State) :
  has_MediaRecorder h = true →
  Hook.mediaStream s = None →
  result (Hook.acquire p h) s = Fulfilled tt →
  statusWrites
    (effects (Hook.run p
                ([(h, Hook.CStart)] ++ hookData h ds
                 ++ [(h, Hook.CStop); (h, Hook.CStopped)])) s)
  = [ Hook.acquiring_media; Hook.idle; Hook.recording;
      Hook.stopping; Hook.stopped ]
  ∧ onStopCalls
      (effects (Hook.run p
                  ([(h, Hook.CStart)] ++ hookData h ds
                   ++ [(h, Hook.CStop); (h, Hook.CStopped)])) s)
    = [createObjectURL h (newBlob (Hook.mediaChunks s ++ ds) (blobProperty p))]
  ∧ Hook.hookResult
      (exec (Hook.run p
               ([(h, Hook.CStart)] ++ hookData h ds
                ++ [(h, Hook.CStop); (h, Hook.CStopped)])) s)
    = {| Hook.hr_error := Some "";
         Hook.hr_mediaBlob :=
           Some (newBlob (Hook.mediaChunks s ++ ds) (blobProperty p));
         Hook.hr_mediaBlobUrl :=
           Some (createObjectURL h
                   (newBlob (Hook.mediaChunks s ++ ds) (blobProperty p)));
         Hook.hr_status := Hook.stopped;
         Hook.hr_isAudioMuted := Hook.isAudioMuted s;
         Hook.hr_previewStream :=
           getVideoTracks <$> Hook.mediaStream (exec (Hook.getMediaStream p h) s) |}.
Proof.
  intros Hhost Hnone Hok.
  destruct (hook_start_success p h s Hhost (or_intror Hok))
    as (Hst & Herr & Hrec & _ & _).
  destruct (hook_start_frame p h s Hhost Hnone) as (Hchunks & Hmuted & Hstream).
  destruct (hook_start_trace p h s Hhost) as [Hwrites _].
  rewrite Hnone, Hok in Hwrites.
  pose proof (hook_start_no_onStop p h s) as Hcalls.
  rewrite !hook_effects_run_app, !hook_run_app.
  destruct (hook_run_cons p h Hook.CStart [] s) as [-> ->].
  cbn [Hook.handle].
  change (exec (Hook.run p []) ?x) with x.
  change (effects (Hook.run p []) ?x) with (@nil (Event Hook.StatusMessages)).
  rewrite app_nil_r.
  set (s1 := exec (Hook.startRecording p h) s) in *.
  destruct (hook_data_run p h ds s1) as [-> ->]. rewrite Hchunks.
  set (s2 := Hook.with_mediaChunks (Hook.mediaChunks s ++ ds) s1).
  destruct (hook_run_cons p h Hook.CStop [(h, Hook.CStopped)] s2) as [-> ->].
  cbn [Hook.handle].
  assert (exec (Hook.stopRecording h) s2
          = Hook.with_mediaRecorder (Some {| rec_state := rs_inactive |})
              (Hook.with_status Hook.stopping s2)
          ∧ effects (Hook.stopRecording h) s2
            = [EvSetStatus Hook.stopping; EvRecorderStop]) as [-> ->].
  { unfold exec, effects. rewrite (hook_stop_with_recorder h s2); [done | done |].
    subst s2; simpl. by rewrite Hrec. }
  set (s3 := Hook.with_mediaRecorder _ _).
  destruct (hook_run_cons p h Hook.CStopped [] s3) as [-> ->].
  cbn [Hook.handle].
  change (exec (Hook.run p []) ?x) with x.
  change (effects (Hook.run p []) ?x) with (@nil (Event Hook.StatusMessages)).
  unfold statusWrites, onStopCalls in *. rewrite !omap_app, Hwrites, Hcalls.
  set (ms := Hook.mediaStream (exec (Hook.getMediaStream p h) s)) in *.
  set (chunks := Hook.mediaChunks s ++ ds) in *.
  clearbody ms s1 chunks. clear Hok Hnone Hwrites Hcalls Hchunks.
  subst s3 s2. hook_unfold; eff_red; simpl.
  unfold Hook.hookResult; simpl. by rewrite Herr, Hmuted, Hstream.
Qed.

(** X9: one complete recording cycle from a state without a stream, on a
    host that grants the acquisition: start, any number of data events,
    stop, the recorder's stop notification.  The statuses written are
    [acquiring_media], [idle], [recording], [stopping], [stopped], in that
    order; [onStop] is called exactly once, with the URL of the stored
    blob; the caller then sees status [stopped], the empty error code, and
    a blob made of the buffered chunks in order (in the render-prop
    component the chunks of this cycle; in the hook, on top of whatever the
    buffer held before).  The hook on a host with a recorder. *)
Theorem complete_cycle (p : Props) (h : Host) (ds : list Blob) :
  (∀ s : RenderProp.State,
     RenderProp.mediaStream s = None →
     result (RenderProp.acquire p h) s = Fulfilled tt →
     let session := [(h, RenderProp.CStart)] ++ rpData h ds
                    ++ [(h, RenderProp.CStop); (h, RenderProp.CStopped)] in
     let blob := newBlob ds (blobProperty p) in
     statusWrites (effects (RenderProp.run p session) s)
     = [ RenderProp.acquiring_media; RenderProp.idle; RenderProp.recording;
         RenderProp.stopping; RenderProp.stopped ]
     ∧ onStopCalls (effects (RenderProp.run p session) s)
       = [createObjectURL h blob]
     ∧ RenderProp.render (exec (RenderProp.run p session) s)
       = {| RenderProp.rp_error := Some "";
            RenderProp.rp_mediaBlobUrl := Some (createObjectURL h blob);
            RenderProp.rp_mediaBlob := Some blob;
            RenderProp.rp_status := RenderProp.stopped;
            RenderProp.rp_isAudioMuted := RenderProp.isAudioMuted s;
            RenderProp.rp_previewStream :=
              RenderProp.previewStream (exec (RenderProp.getMediaStream p h) s) |})
  ∧ (has_MediaRecorder h = true →
     ∀ s : Hook.State,
       Hook.mediaStream s = None →
       result (Hook.acquire p h) s = Fulfilled tt →
       let session := [(h, Hook.CStart)] ++ hookData h ds
                      ++ [(h, Hook.CStop); (h, Hook.CStopped)] in
       let blob := newBlob (Hook.mediaChunks s ++ ds) (blobProperty p) in
       statusWrites (effects (Hook.run p session) s)
       = [ Hook.acquiring_media; Hook.idle; Hook.recording;
           Hook.stopping; Hook.stopped ]
       ∧ onStopCalls (effects (Hook.run p session) s) = [createObjectURL h blob]
       ∧ Hook.hookResult (exec (Hook.run p session) s)
         = {| Hook.hr_error := Some "";
              Hook.hr_mediaBlob := Some blob;
              Hook.hr_mediaBlobUrl := Some (createObjectURL h blob);
              Hook.hr_status := Hook.stopped;
              Hook.hr_isAudioMuted := Hook.isAudioMuted s;
              Hook.hr_previewStream :=
                getVideoTracks
                  <$> Hook.mediaStream (exec (Hook.getMediaStream p h) s) |}).
Proof.
  split.
  - intros s Hnone Hok; cbv zeta. by apply rp_first_cycle.
  - intros Hhost s Hnone Hok; cbv zeta. by apply hook_first_cycle.
Qed.

Lemma complete_cycle_witness :
  statusWrites
    (effects (RenderProp.run defaultProps
                ([(modernHost, RenderProp.CStart)]
                 ++ rpData modernHost [chunkA; chunkB]
                 ++ [(modernHost, RenderProp.CStop);
                     (modernHost, RenderProp.CStopped)]))
             RenderProp.initial)
  = [ RenderProp.acquiring_media; RenderProp.idle; RenderProp.recording;
      RenderProp.stopping; RenderProp.stopped ]
  ∧ onStopCalls
      (effects (Hook.run defaultProps
                  ([(modernHost, Hook.CStart)] ++ hookData modernHost [chunkA; chunkB]
                   ++ [(modernHost, Hook.CStop); (modernHost, Hook.CStopped)]))
               Hook.initial)
    = ["blob:rec-3"].
Proof.
  destruct (complete_cycle defaultProps modernHost [chunkA; chunkB]) as [Hrp Hhook].
  split.
  - apply (Hrp RenderProp.initial); reflexivity.
  - apply (Hhook eq_refl Hook.initial); reflexivity.
Defined.

(** ** Muting, composed *)

Lemma setAudioEnabled_again (v w : bool) (s : MediaStream) :
  setAudioEnabled v (setAudioEnabled w s) = setAudioEnabled v s.
Proof.
  unfold setAudioEnabled. rewrite <- list_fmap_compose.
  apply list_fmap_ext. intros i t _; simpl.
  destruct (bool_decide (kind t = audio_kind)) eqn:Hk; simpl.
  - apply bool_decide_eq_true in Hk. by rewrite bool_decide_true.
  - by rewrite Hk.
Qed.

(** X10: muting is a last-call-wins toggle that touches nothing else.  Two
    mute calls in a row leave the state the second alone would; after
    [muteAudio mute] the flag shown to the caller is [mute]; and a mute
    call sends nothing to the host and leaves recorder, status, error,
    chunk buffer, blob and URL as they were.  Both front ends. *)
Theorem mute_last_call_wins (a b : bool) :
  (∀ s : RenderProp.State,
     exec (RenderProp.muteAudio b) (exec (RenderProp.muteAudio a) s)
     = exec (RenderProp.muteAudio b) s
     ∧ RenderProp.rp_isAudioMuted
         (RenderProp.render (exec (RenderProp.muteAudio b) s)) = b
     ∧ effects (RenderProp.muteAudio b) s = [EvSetIsAudioMuted b]
     ∧ RenderProp.with_mediaStream (RenderProp.mediaStream s)
         (RenderProp.with_isAudioMuted (RenderProp.isAudioMuted s)
            (exec (RenderProp.muteAudio b) s))
       = s)
  ∧ (∀ s : Hook.State,
     exec (Hook.muteAudio b) (exec (Hook.muteAudio a) s)
     = exec (Hook.muteAudio b) s
     ∧ Hook.hr_isAudioMuted (Hook.hookResult (exec (Hook.muteAudio b) s)) = b
     ∧ effects (Hook.muteAudio b) s = [EvSetIsAudioMuted b]
     ∧ Hook.with_mediaStream (Hook.mediaStream s)
         (Hook.with_isAudioMuted (Hook.isAudioMuted s)
            (exec (Hook.muteAudio b) s))
       = s).
Proof.
  split; intros s.
  - rp_unfold; eff_red; simpl. destruct s as [r cs [stream |] pv st m u bl e]; simpl;
      repeat split.
    unfold RenderProp.with_mediaStream; simpl. by rewrite setAudioEnabled_again.
  - hook_unfold; eff_red; simpl. destruct s as [r fb cs [stream |] st m u bl e]; simpl;
      repeat split.
    unfold Hook.with_mediaStream; simpl. by rewrite setAudioEnabled_again.
Qed.

(** X11: the preview stream the hook hands out consists of video tracks
    only, is null exactly when no stream is held, and is not affected by
    muting or unmuting. *)
Theorem hook_preview_is_video_only (s : Hook.State) (mute : bool) :
  (∀ pv, Hook.hr_previewStream (Hook.hookResult s) = Some pv →
         Forall (λ t, kind t = video_kind) pv)
  ∧ (Hook.hr_previewStream (Hook.hookResult s) = None
     ↔ Hook.mediaStream s = None)
  ∧ Hook.hr_previewStream (Hook.hookResult (exec (Hook.muteAudio mute) s))
    = Hook.hr_previewStream (Hook.hookResult s).
Proof.
  unfold Hook.hookResult; simpl. split; [| split].
  - intros pv Hpv. destruct (Hook.mediaStream s) as [stream |]; simplify_eq/=.
    apply Forall_forall. intros t Ht.
    by apply list_elem_of_filter in Ht as [Hk _].
  - by destruct (Hook.mediaStream s).
  - hook_unfold; eff_red; simpl.
    destruct (Hook.mediaStream s) as [stream |] eqn:Hs; simpl; rewrite ?Hs; simpl; [| done].
    by rewrite setAudioEnabled_video.
Qed.

(** ** What a held stream and a created recorder guarantee *)







Lemma rp_handle_keeps_recorder (p : Props) (h : Host) (c : RenderProp.Call)
    (s : RenderProp.State) :
  is_Some (RenderProp.mediaRecorder s) →
  is_Some (RenderProp.mediaRecorder (exec (RenderProp.handle p h c) s)).
Proof.
  intros [r Hr].
  destruct c; rp_unfold; eff_red; simpl;
    repeat (rewrite ?Hr; simpl; try case_match; simplify_eq/=); eauto.
Qed.

Lemma hook_handle_keeps_recorder (p : Props) (h : Host) (c : Hook.Call)
    (s : Hook.State) :
  is_Some (Hook.mediaRecorder s) →
  is_Some (Hook.mediaRecorder (exec (Hook.handle p h c) s)).
Proof.
  intros [r Hr].
  destruct c; hook_unfold; eff_red; simpl;
    repeat (rewrite ?Hr; simpl; try case_match; simplify_eq/=); eauto.
Qed.

Lemma rp_run_keeps_recorder (p : Props) (cs : list (Host * RenderProp.Call))
    (s : RenderProp.State) :
  is_Some (RenderProp.mediaRecorder s) →
  is_Some (RenderProp.mediaRecorder (exec (RenderProp.run p cs) s)).
Proof.
  revert s. induction cs as [| [h c] cs IH]; intros s Hr; [done |].
  destruct (rp_run_cons p h c cs s) as [-> _].
  by apply IH, rp_handle_keeps_recorder.
Qed.

Lemma hook_run_keeps_recorder (p : Props) (cs : list (Host * Hook.Call))
    (s : Hook.State) :
  is_Some (Hook.mediaRecorder s) →
  is_Some (Hook.mediaRecorder (exec (Hook.run p cs) s)).
Proof.
  revert s. induction cs as [| [h c] cs IH]; intros s Hr; [done |].
  destruct (hook_run_cons p h c cs s) as [-> _].
  by apply IH, hook_handle_keeps_recorder.
Qed.

(** X13: the recorder ref is never cleared.  Once a recorder has been
    created, after any further calls [stopRecording] still finds it: it
    writes status [stopping] and calls the recorder's [stop] again, also
    when the recording had already completed and the status was [stopped].
    Render-prop component, and hook on a host with a recorder. *)
Theorem stop_after_completion_is_not_a_noop (p : Props) :
  (∀ (cs : list (Host * RenderProp.Call)) (s : RenderProp.State),
     is_Some (RenderProp.mediaRecorder s) →
     let s' := exec (RenderProp.run p cs) s in
     is_Some (RenderProp.mediaRecorder s')
     ∧ RenderProp.rp_status (RenderProp.render (exec RenderProp.stopRecording s'))
       = RenderProp.stopping
     ∧ effects RenderProp.stopRecording s'
       = [EvSetStatus RenderProp.stopping; EvRecorderStop])
  ∧ (∀ (h : Host) (cs : list (Host * Hook.Call)) (s : Hook.State),
     has_MediaRecorder h = true →
     is_Some (Hook.mediaRecorder s) →
     let s' := exec (Hook.run p cs) s in
     is_Some (Hook.mediaRecorder s')
     ∧ Hook.hr_status (Hook.hookResult (exec (Hook.stopRecording h) s'))
       = Hook.stopping
     ∧ effects (Hook.stopRecording h) s'
       = [EvSetStatus Hook.stopping; EvRecorderStop]).
Proof.
  split.
  - intros cs s Hr; cbv zeta.
    pose proof (rp_run_keeps_recorder p cs s Hr) as Hr'.
    split; [done |].
    set (s' := exec (RenderProp.run p cs) s) in *. clearbody s'.
    unfold exec, effects. by rewrite (rp_stop_with_recorder _ Hr').
  - intros h cs s Hhost Hr; cbv zeta.
    pose proof (hook_run_keeps_recorder p cs s Hr) as Hr'.
    split; [done |].
    set (s' := exec (Hook.run p cs) s) in *. clearbody s'.
    unfold exec, effects. by rewrite (hook_stop_with_recorder h _ Hhost Hr').
Qed.

Lemma stop_after_completion_is_not_a_noop_witness :
  RenderProp.status
    (exec (RenderProp.run defaultProps (rpCycle chunkA)) RenderProp.initial)
  = RenderProp.stopped
  ∧ RenderProp.rp_status
      (RenderProp.render
         (exec RenderProp.stopRecording
            (exec (RenderProp.run defaultProps
                     [(modernHost, RenderProp.CData chunkA);
                      (modernHost, RenderProp.CStop);
                      (modernHost, RenderProp.CStopped)])
                  (exec (RenderProp.startRecording defaultProps modernHost)
                        RenderProp.initial))))
    = RenderProp.stopping.
Proof.
  split; [reflexivity |].
  destruct (stop_after_completion_is_not_a_noop defaultProps) as [Hrp _].
  apply (Hrp [(modernHost, RenderProp.CData chunkA);
              (modernHost, RenderProp.CStop);
              (modernHost, RenderProp.CStopped)]
             (exec (RenderProp.startRecording defaultProps modernHost)
                   RenderProp.initial)).
  by eexists.
Defined.

(** ** Counting over sessions *)

Lemma onStopCalls_app {Status} (a b : list (Event Status)) :
  onStopCalls (a ++ b) = onStopCalls a ++ onStopCalls b.
Proof. apply omap_app. Qed.

Lemma rp_handle_onStop (p : Props) (h : Host) (c : RenderProp.Call)
    (s : RenderProp.State) :
  onStopCalls (effects (RenderProp.handle p h c) s)
  = match c with
    | RenderProp.CStopped =>
        [createObjectURL h (newBlob (RenderProp.mediaChunks s) (blobProperty p))]
    | _ => []
    end.
Proof.
  destruct c; rp_unfold; eff_red; simpl;
    repeat (try case_match; simplify_eq/=); eauto.
Qed.

Lemma hook_handle_onStop (p : Props) (h : Host) (c : Hook.Call) (s : Hook.State) :
  has_MediaRecorder h = true →
  onStopCalls (effects (Hook.handle p h c) s)
  = match c with
    | Hook.CStopped =>
        [createObjectURL h (newBlob (Hook.mediaChunks s) (blobProperty p))]
    | _ => []
    end.
Proof.
  intros Hrec.
  destruct c; hook_unfold; unfold Hook.isWebkit; eff_red; rewrite ?Hrec; simpl;
    repeat (try case_match; simplify_eq/=); eauto.
Qed.

(** X14: [onStop] is called once per stop notification and by nothing
    else: over any session the number of [onStop] calls equals the number
    of stop notifications the recorder delivered.  Render-prop component,
    and hook when every call runs on a host with a recorder. *)
Theorem onStop_once_per_stop_notification (p : Props) :
  (∀ (cs : list (Host * RenderProp.Call)) (s : RenderProp.State),
     length (onStopCalls (effects (RenderProp.run p cs) s))
     = rpStopNotifications cs)
  ∧ (∀ (cs : list (Host * Hook.Call)) (s : Hook.State),
     Forall (λ hc, has_MediaRecorder hc.1 = true) cs →
     length (onStopCalls (effects (Hook.run p cs) s))
     = hookStopNotifications cs).
Proof.
  split.
  - intros cs. induction cs as [| [h c] cs IH]; intros s; [done |].
    destruct (rp_run_cons p h c cs s) as [_ ->].
    rewrite onStopCalls_app, length_app, IH, rp_handle_onStop.
    unfold rpStopNotifications. by destruct c.
  - intros cs. induction cs as [| [h c] cs IH]; intros s Hhosts; [done |].
    apply Forall_cons in Hhosts as [Hh Hhosts].
    destruct (hook_run_cons p h c cs s) as [_ ->].
    rewrite onStopCalls_app, length_app, IH, hook_handle_onStop by done.
    unfold hookStopNotifications. by destruct c.
Qed.

Lemma onStop_once_per_stop_notification_witness :
  length
    (onStopCalls
       (effects (Hook.run defaultProps (hookCycle chunkA ++ hookCycle chunkB))
                Hook.initial))
  = 2.
Proof.
  destruct (onStop_once_per_stop_notification defaultProps) as [_ Hhook].
  apply (Hhook (hookCycle chunkA ++ hookCycle chunkB) Hook.initial).
  repeat constructor.
Defined.

Lemma hook_handle_chunks (p : Props) (h : Host) (c : Hook.Call) (s : Hook.State) :
  Hook.mediaChunks (exec (Hook.handle p h c) s)
  = Hook.mediaChunks s ++ match c with Hook.CData d => [d] | _ => [] end.
Proof.
  destruct c; hook_unfold; eff_red; simpl;
    repeat (try case_match; simplify_eq/=); by rewrite ?app_nil_r.
Qed.

(** X15: the hook's chunk buffer is append-only.  After any session, on
    any hosts, it holds what it held before followed by every chunk the
    session delivered, in order; no call of the hook removes a chunk. *)
Theorem hook_buffer_is_append_only (p : Props) (cs : list (Host * Hook.Call))
    (s : Hook.State) :
  Hook.mediaChunks (exec (Hook.run p cs) s) = Hook.mediaChunks s ++ hookDelivered cs.
Proof.
  revert s. induction cs as [| [h c] cs IH]; intros s.
  - by rewrite app_nil_r.
  - destruct (hook_run_cons p h c cs s) as [-> _].
    rewrite IH, hook_handle_chunks. unfold hookDelivered.
    rewrite <- app_assoc. by destruct c.
Qed.

(** ** The fallback path and the native recorder *)

Lemma hook_handle_fallback (p : Props) (h : Host) (c : Hook.Call) (s : Hook.State) :
  has_MediaRecorder h = false →
  Hook.mediaRecorder s = None →
  Hook.mediaRecorder (exec (Hook.handle p h c) s) = None
  ∧ recorderCalls (effects (Hook.handle p h c) s) = [].
Proof.
  intros Hrec Hr.
  destruct c; hook_unfold; unfold Hook.isWebkit; eff_red; rewrite ?Hrec; simpl;
    repeat (rewrite ?Hr; simpl; try case_match; simplify_eq/=); eauto.
Qed.

(** X16: on hosts without [window.MediaRecorder] the hook never creates or
    calls a native recorder: over any session started without one the
    recorder ref stays null and no recorder method is called.  In
    particular pause and resume do nothing there, since they act on the
    native recorder only. *)
Theorem fallback_never_uses_native_recorder (p : Props)
    (cs : list (Host * Hook.Call)) (s : Hook.State) :
  Forall (λ hc, has_MediaRecorder hc.1 = false) cs →
  Hook.mediaRecorder s = None →
  Hook.mediaRecorder (exec (Hook.run p cs) s) = None
  ∧ recorderCalls (effects (Hook.run p cs) s) = []
  ∧ Hook.pauseRecording (exec (Hook.run p cs) s)
    = (tt, exec (Hook.run p cs) s, [])
  ∧ Hook.resumeRecording (exec (Hook.run p cs) s)
    = (tt, exec (Hook.run p cs) s, []).
Proof.
  intros Hhosts Hr.
  assert (Hook.mediaRecorder (exec (Hook.run p cs) s) = None
          ∧ recorderCalls (effects (Hook.run p cs) s) = []) as [Hnone Hcalls].
  { revert s Hr. induction Hhosts as [| [h c] cs Hh Hhosts IH]; intros s Hr; [done |].
    destruct (hook_run_cons p h c cs s) as [-> ->].
    destruct (hook_handle_fallback p h c s Hh Hr) as [Hr' Hc].
    destruct (IH _ Hr') as [Hr'' Hc'].
    split; [done |]. unfold recorderCalls in *. by rewrite omap_app, Hc, Hc'. }
  repeat split; try done.
  - unfold Hook.pauseRecording; eff_red. by rewrite Hnone.
  - unfold Hook.resumeRecording; eff_red. by rewrite Hnone.
Qed.

Lemma fallback_never_uses_native_recorder_witness :
  Hook.status
    (exec (Hook.run defaultProps
             [(legacyHost, Hook.CEffect); (legacyHost, Hook.CStart)])
          Hook.initial)
  = Hook.recording
  ∧ Hook.pauseRecording
      (exec (Hook.run defaultProps
               [(legacyHost, Hook.CEffect); (legacyHost, Hook.CStart)])
            Hook.initial)
    = (tt,
       exec (Hook.run defaultProps
               [(legacyHost, Hook.CEffect); (legacyHost, Hook.CStart)])
            Hook.initial,
       []).
Proof.
  split; [reflexivity |].
  apply (fallback_never_uses_native_recorder defaultProps
           [(legacyHost, Hook.CEffect); (legacyHost, Hook.CStart)] Hook.initial);
    [repeat constructor | reflexivity].
Defined.

(** ** The setup effect on a host with a recorder *)

Lemma rp_checkConstraints_spec (h : Host) (m : MediaSpec) (s : RenderProp.State) :
  exec (RenderProp.checkConstraints h m) s = s
  ∧ errorWrites (effects (RenderProp.checkConstraints h m) s) = []
  ∧ ((∀ c, m = MConstraints c → unSupportedConstraints h c = []) →
     effects (RenderProp.checkConstraints h m) s = []).
Proof.
  unfold RenderProp.checkConstraints. destruct m as [b | c]; [done |].
  case_bool_decide as Hc; [done |].
  repeat split. intros Hall. by destruct Hc, (Hall c).
Qed.

Lemma hook_checkConstraints_spec (h : Host) (m : MediaSpec) (s : Hook.State) :
  exec (Hook.checkConstraints h m) s = s
  ∧ errorWrites (effects (Hook.checkConstraints h m) s) = []
  ∧ ((∀ c, m = MConstraints c → unSupportedConstraints h c = []) →
     effects (Hook.checkConstraints h m) s = []).
Proof.
  unfold Hook.checkConstraints. destruct m as [b | c]; [done |].
  case_bool_decide as Hc; [done |].
  repeat split. intros Hall. by destruct Hc, (Hall c).
Qed.

Lemma rp_getMediaStream_quiet (p : Props) (h : Host) (s : RenderProp.State) :
  consoleErrors (effects (RenderProp.getMediaStream p h) s) = [].
Proof. rp_unfold; eff_red. by split_acquire p h. Qed.

Lemma hook_getMediaStream_quiet (p : Props) (h : Host) (s : Hook.State) :
  consoleErrors (effects (Hook.getMediaStream p h) s) = [].
Proof. hook_unfold; eff_red. by split_acquire p h. Qed.

Lemma rp_useEffect_ok (p : Props) (h : Host) (s : RenderProp.State) :
  has_MediaRecorder h = true →
  screen p && negb (has_getDisplayMedia h) = false →
  result (RenderProp.useEffect p h) s = None
  ∧ exec (RenderProp.useEffect p h) s
    = match RenderProp.mediaStream s with
      | Some _ => s
      | None => exec (RenderProp.getMediaStream p h) s
      end
  ∧ effects (RenderProp.useEffect p h) s
    = effects (RenderProp.checkConstraints h (audio p)) s
      ++ effects (RenderProp.checkConstraints h (video p)) s
      ++ match requestedMimeType p with
         | Some m => if isTypeSupported h m then []
                     else [EvConsoleError mimeMessage]
         | None => []
         end
      ++ match RenderProp.mediaStream s with
         | Some _ => []
         | None => effects (RenderProp.getMediaStream p h) s
         end.
Proof.
  intros Hrec Hscreen. unfold RenderProp.useEffect. rewrite Hrec, Hscreen; simpl.
  repeat (rewrite result_bind || rewrite exec_bind || rewrite effects_bind).
  destruct (rp_checkConstraints_spec h (audio p) s) as (Ha & _ & _).
  rewrite !Ha.
  destruct (rp_checkConstraints_spec h (video p) s) as (Hv & _ & _).
  rewrite !Hv.
  set (mime := match requestedMimeType p with
               | Some m => if isTypeSupported h m then mret tt
                           else emit (EvConsoleError mimeMessage)
               | None => mret tt
               end : RenderProp.Action unit).
  assert (exec mime s = s
          ∧ effects mime s
            = match requestedMimeType p with
              | Some m => if isTypeSupported h m then []
                          else [EvConsoleError mimeMessage]
              | None => []
              end) as [Hm ->].
  { subst mime. destruct (requestedMimeType p) as [m |]; [| done].
    by destruct (isTypeSupported h m). }
  rewrite ?Hm. change (exec get s) with s. change (result get s) with s.
  change (effects get s) with (@nil (Event RenderProp.StatusMessages)).
  change (effects (mret None) ?x) with (@nil (Event RenderProp.StatusMessages)).
  change (exec (mret None) ?x) with x.
  destruct (RenderProp.mediaStream s); rewrite ?app_nil_r; done.
Qed.

Lemma hook_useEffect_ok (p : Props) (h : Host) (s : Hook.State) :
  has_MediaRecorder h = true →
  screen p && negb (has_getDisplayMedia h) = false →
  result (Hook.useEffect p h) s = None
  ∧ exec (Hook.useEffect p h) s
    = match Hook.mediaStream s with
      | Some _ => s
      | None => exec (Hook.getMediaStream p h) s
      end
  ∧ effects (Hook.useEffect p h) s
    = effects (Hook.checkConstraints h (audio p)) s
      ++ effects (Hook.checkConstraints h (video p)) s
      ++ match requestedMimeType p with
         | Some m => if isTypeSupported h m then []
                     else [EvConsoleError mimeMessage]
         | None => []
         end
      ++ match Hook.mediaStream s with
         | Some _ => []
         | None => effects (Hook.getMediaStream p h) s
         end.
Proof.
  intros Hrec Hscreen. unfold Hook.useEffect.
  assert (Hook.isWebkit h = false) as Hweb
    by (unfold Hook.isWebkit; by rewrite Hrec).
  rewrite Hweb, Hscreen.
  repeat (rewrite result_bind || rewrite exec_bind || rewrite effects_bind).
  change (exec (mret ()) s) with s.
  change (effects (mret ()) s) with (@nil (Event Hook.StatusMessages)).
  destruct (hook_checkConstraints_spec h (audio p) s) as (Ha & _ & _).
  rewrite !Ha.
  destruct (hook_checkConstraints_spec h (video p) s) as (Hv & _ & _).
  rewrite !Hv.
  assert (exec (Hook.checkMimeType p h) s = s
          ∧ result (Hook.checkMimeType p h) s = None
          ∧ effects (Hook.checkMimeType p h) s
            = match requestedMimeType p with
              | Some m => if isTypeSupported h m then []
                          else [EvConsoleError mimeMessage]
              | None => []
              end) as (Hm & Hr & ->).
  { unfold Hook.checkMimeType. rewrite Hweb.
    destruct (requestedMimeType p) as [m |]; [| done].
    by destruct (isTypeSupported h m). }
  rewrite ?Hm, ?Hr.
  repeat (rewrite result_bind || rewrite exec_bind || rewrite effects_bind).
  change (exec get s) with s. change (result get s) with s.
  change (effects get s) with (@nil (Event Hook.StatusMessages)).
  change (effects (mret None) ?x) with (@nil (Event Hook.StatusMessages)).
  change (exec (mret None) ?x) with x.
  destruct (Hook.mediaStream s); rewrite ?app_nil_r; done.
Qed.

(** X17: the setup effect on a host with a recorder.  If screen capture is
    requested and [getDisplayMedia] is missing it throws before changing
    anything.  Otherwise it does not throw, and its only change to the
    state is the acquisition it runs when no stream is held yet (with a
    stream held the state is left exactly as it was): unsupported
    constraint keys and an unsupported MIME type are printed, never written
    to the error field; and when every constraint key and the requested
    MIME type are supported nothing is printed.  Both front ends. *)
Theorem setup_checks_then_acquires (p : Props) (h : Host) :
  has_MediaRecorder h = true →
  (screen p = true → has_getDisplayMedia h = false →
   (∀ s : RenderProp.State,
      RenderProp.useEffect p h s
      = (Some (Error "This browser doesn't support screen capturing"), s, []))
   ∧ (∀ s : Hook.State,
      Hook.useEffect p h s
      = (Some (Error "This browser doesn't support screen capturing"), s, [])))
  ∧ (screen p && negb (has_getDisplayMedia h) = false →
     (∀ s : RenderProp.State,
        result (RenderProp.useEffect p h) s = None
        ∧ exec (RenderProp.useEffect p h) s
          = match RenderProp.mediaStream s with
            | Some _ => s
            | None => exec (RenderProp.getMediaStream p h) s
            end
        ∧ errorWrites (effects (RenderProp.useEffect p h) s)
          = match RenderProp.mediaStream s with
            | Some _ => []
            | None => errorWrites (effects (RenderProp.getMediaStream p h) s)
            end
        ∧ ((∀ c, audio p = MConstraints c → unSupportedConstraints h c = []) →
           (∀ c, video p = MConstraints c → unSupportedConstraints h c = []) →
           (∀ m, requestedMimeType p = Some m → isTypeSupported h m = true) →
           consoleErrors (effects (RenderProp.useEffect p h) s) = []))
     ∧ (∀ s : Hook.State,
        result (Hook.useEffect p h) s = None
        ∧ exec (Hook.useEffect p h) s
          = match Hook.mediaStream s with
            | Some _ => s
            | None => exec (Hook.getMediaStream p h) s
            end
        ∧ errorWrites (effects (Hook.useEffect p h) s)
          = match Hook.mediaStream s with
            | Some _ => []
            | None => errorWrites (effects (Hook.getMediaStream p h) s)
            end
        ∧ ((∀ c, audio p = MConstraints c → unSupportedConstraints h c = []) →
           (∀ c, video p = MConstraints c → unSupportedConstraints h c = []) →
           (∀ m, requestedMimeType p = Some m → isTypeSupported h m = true) →
           consoleErrors (effects (Hook.useEffect p h) s) = []))).
Proof.
  intros Hrec. split.
  - intros Hscreen Hgdm. split; intros s.
    + unfold RenderProp.useEffect. by rewrite Hrec, Hscreen, Hgdm.
    + unfold Hook.useEffect, Hook.isWebkit. by rewrite Hrec, Hscreen, Hgdm.
  - intros Hscreen. split; intros s.
    + destruct (rp_useEffect_ok p h s Hrec Hscreen) as (Hres & Hexec & Heff).
      destruct (rp_checkConstraints_spec h (audio p) s) as (_ & Hea & Hqa).
      destruct (rp_checkConstraints_spec h (video p) s) as (_ & Hev & Hqv).
      split; [done |]. split; [done |]. rewrite Heff. split.
      * unfold errorWrites in *. rewrite !omap_app, Hea, Hev.
        destruct (requestedMimeType p) as [m |]; [destruct (isTypeSupported h m) |];
          by destruct (RenderProp.mediaStream s).
      * intros Haudio Hvideo Hmime. rewrite (Hqa Haudio), (Hqv Hvideo).
        destruct (requestedMimeType p) as [m |]; [rewrite (Hmime m eq_refl) |];
          (destruct (RenderProp.mediaStream s); [done |]);
          apply rp_getMediaStream_quiet.
    + destruct (hook_useEffect_ok p h s Hrec Hscreen) as (Hres & Hexec & Heff).
      destruct (hook_checkConstraints_spec h (audio p) s) as (_ & Hea & Hqa).
      destruct (hook_checkConstraints_spec h (video p) s) as (_ & Hev & Hqv).
      split; [done |]. split; [done |]. rewrite Heff. split.
      * unfold errorWrites in *. rewrite !omap_app, Hea, Hev.
        destruct (requestedMimeType p) as [m |]; [destruct (isTypeSupported h m) |];
          by destruct (Hook.mediaStream s).
      * intros Haudio Hvideo Hmime. rewrite (Hqa Haudio), (Hqv Hvideo).
        destruct (requestedMimeType p) as [m |]; [rewrite (Hmime m eq_refl) |];
          (destruct (Hook.mediaStream s); [done |]);
          apply hook_getMediaStream_quiet.
Qed.

Lemma setup_checks_then_acquires_witness :
  RenderProp.useEffect constrainedProps modernHost RenderProp.initial
  = (None,
     RenderProp.with_status RenderProp.idle
       (RenderProp.with_previewStream (Some [])
          (RenderProp.with_mediaStream (Some [microphoneTrack])
             (RenderProp.with_status RenderProp.acquiring_media RenderProp.initial))),
     [ EvSetStatus RenderProp.acquiring_media;
       EvGetUserMedia {| c_audio := Some (MConstraints [("deviceId", "default")]);
                         c_video := Some (MBool false) |};
       EvSetStatus RenderProp.idle ])
  ∧ consoleErrors (effects (Hook.useEffect constrainedProps modernHost) Hook.initial)
    = [].
Proof.
  split; [reflexivity |].
  destruct (setup_checks_then_acquires constrainedProps modernHost eq_refl)
    as [_ Hok].
  destruct (Hok eq_refl) as [_ Hhook].
  destruct (Hhook Hook.initial) as (_ & _ & _ & Hquiet).
  apply Hquiet.
  - intros c Hc. simpl in Hc. simplify_eq. reflexivity.
  - intros c Hc. discriminate Hc.
  - intros m Hm. vm_compute in Hm. simplify_eq. reflexivity.
Defined.

(** ** The preview stream outside screen mode *)

Lemma rp_handle_preview_inv (p : Props) (h : Host) (c : RenderProp.Call)
    (s : RenderProp.State) :
  screen p = false →
  RenderProp.previewStream s = getVideoTracks <$> RenderProp.mediaStream s →
  RenderProp.previewStream (exec (RenderProp.handle p h c) s)
  = getVideoTracks <$> RenderProp.mediaStream (exec (RenderProp.handle p h c) s).
Proof.
  intros Hscreen Hinv.
  destruct (RenderProp.mediaStream s) as [stream |] eqn:Hs; simpl in Hinv;
    destruct c; rp_unfold; eff_red; rewrite ?Hscreen; simpl;
    repeat (rewrite ?Hs, ?Hinv; simpl; try case_match; simplify_eq/=);
    rewrite ?setAudioEnabled_video; try done.
  match goal with H : RenderProp.mediaStream s = _ |- _ => by rewrite H end.
Qed.

(** X18: outside screen mode the render-prop component's [previewStream]
    always consists of the video tracks of the stream it holds, and is null
    while it holds none: the invariant holds initially and every call keeps
    it, muting included.  This is the value the hook computes afresh on
    each render. *)
Theorem preview_is_video_of_held_stream (p : Props) :
  screen p = false →
  ∀ (cs : list (Host * RenderProp.Call)) (s : RenderProp.State),
    RenderProp.previewStream s = getVideoTracks <$> RenderProp.mediaStream s →
    RenderProp.rp_previewStream (RenderProp.render (exec (RenderProp.run p cs) s))
    = getVideoTracks <$> RenderProp.mediaStream (exec (RenderProp.run p cs) s).
Proof.
  intros Hscreen cs. unfold RenderProp.render; simpl.
  induction cs as [| [h c] cs IH]; intros s Hinv; [done |].
  destruct (rp_run_cons p h c cs s) as [-> _].
  by apply IH, rp_handle_preview_inv.
Qed.

Lemma preview_is_video_of_held_stream_witness :
  RenderProp.rp_previewStream
    (RenderProp.render
       (exec (RenderProp.run
                {| audio := MBool true; video := MBool true; blobPropertyBag := None;
                   screen := false; mediaRecorderOptions := None |}
                [(modernHost, RenderProp.CEffect); (modernHost, RenderProp.CMute);
                 (modernHost, RenderProp.CStart)])
             RenderProp.initial))
  = Some [cameraTrack].
Proof.
  apply (preview_is_video_of_held_stream
           {| audio := MBool true; video := MBool true; blobPropertyBag := None;
              screen := false; mediaRecorderOptions := None |} eq_refl
           [(modernHost, RenderProp.CEffect); (modernHost, RenderProp.CMute);
            (modernHost, RenderProp.CStart)] RenderProp.initial).
  reflexivity.
Defined.

(** ** The error shown is a table entry *)

Lemma rp_handle_error_known (p : Props) (h : Host) (c : RenderProp.Call)
    (s : RenderProp.State) :
  rejectsWithKnownNames h →
  is_Some (RecorderErrors !! RenderProp.error s) →
  is_Some (RecorderErrors !! RenderProp.error (exec (RenderProp.handle p h c) s)).
Proof.
  intros Hknown Hs.
  destruct c; rp_unfold; eff_red; simpl;
    repeat (simpl; try case_match; simplify_eq/=);
    first [ done | by eexists | (eapply Hknown; eauto) ].
Qed.

Lemma hook_handle_error_known (p : Props) (h : Host) (c : Hook.Call)
    (s : Hook.State) :
  rejectsWithKnownNames h →
  is_Some (RecorderErrors !! Hook.error s) →
  is_Some (RecorderErrors !! Hook.error (exec (Hook.handle p h c) s)).
Proof.
  intros Hknown Hs.
  destruct c; hook_unfold; eff_red; simpl;
    repeat (simpl; try case_match; simplify_eq/=);
    first [ done | by eexists | (eapply Hknown; eauto) ].
Qed.

(** X19: as long as the host rejects capture requests only with names that
    are keys of the error table, the error shown to the caller is always an
    entry of the table, never [undefined]: every key the code writes on its
    own (NONE, NO_RECORDER, NotFoundError) is in the table.  Over any
    session from a state whose key is in the table, in particular from the
    initial state.  Both front ends. *)
Theorem shown_error_is_a_table_entry (p : Props) :
  (∀ (cs : list (Host * RenderProp.Call)) (s : RenderProp.State),
     Forall (λ hc, rejectsWithKnownNames hc.1) cs →
     is_Some (RecorderErrors !! RenderProp.error s) →
     is_Some (RenderProp.rp_error (RenderProp.render (exec (RenderProp.run p cs) s))))
  ∧ (∀ (cs : list (Host * Hook.Call)) (s : Hook.State),
     Forall (λ hc, rejectsWithKnownNames hc.1) cs →
     is_Some (RecorderErrors !! Hook.error s) →
     is_Some (Hook.hr_error (Hook.hookResult (exec (Hook.run p cs) s)))).
Proof.
  split; intros cs s Hhosts; unfold RenderProp.render, Hook.hookResult; simpl;
    revert s.
  - induction Hhosts as [| [h c] cs Hh Hhosts IH]; intros s Hs; [done |].
    destruct (rp_run_cons p h c cs s) as [-> _].
    by apply IH, rp_handle_error_known.
  - induction Hhosts as [| [h c] cs Hh Hhosts IH]; intros s Hs; [done |].
    destruct (hook_run_cons p h c cs s) as [-> _].
    by apply IH, hook_handle_error_known.
Qed.

Lemma shown_error_is_a_table_entry_witness :
  is_Some
    (Hook.hr_error
       (Hook.hookResult
          (exec (Hook.run defaultProps
                   [(denyingHost, Hook.CEffect); (legacyHost, Hook.CStart);
                    (modernHost, Hook.CError)])
                Hook.initial))).
Proof.
  destruct (shown_error_is_a_table_entry defaultProps) as [_ Hhook].
  apply (Hhook [(denyingHost, Hook.CEffect); (legacyHost, Hook.CStart);
                (modernHost, Hook.CError)] Hook.initial).
  - repeat constructor; intros c name [H | H]; simpl in H; simplify_eq;
      by eexists.
  - by eexists.
Defined.

Lemma hook_preview_is_video_only_witness :
  Forall (λ t, kind t = video_kind) [cameraTrack]
  ∧ Hook.hr_previewStream
      (Hook.hookResult
         (exec (Hook.muteAudio true)
               (Hook.with_mediaStream (Some [microphoneTrack; cameraTrack])
                                      Hook.initial)))
    = Some [cameraTrack].
Proof.
  destruct (hook_preview_is_video_only
              (Hook.with_mediaStream (Some [microphoneTrack; cameraTrack]) Hook.initial)
              true) as (Hvideo & _ & Hmute).
  split.
  - apply Hvideo. reflexivity.
  - rewrite Hmute. reflexivity.
Defined.

(** ** Failures that do not come from an acquisition *)

(** X20: on a host without [window.MediaRecorder], a start issued while no
    encoder is installed (the setup effect has not run) records the key
    NotFoundError, shown to the caller as [no_specified_media_found]; it
    leaves the status where it was, sends nothing to the host, and keeps
    every other field. *)
Theorem fallback_start_without_encoder (p : Props) (h : Host) (s : Hook.State) :
  has_MediaRecorder h = false →
  Hook.fallBackAudio s = None →
  Hook.startRecording p h s
  = (tt, Hook.with_error "NotFoundError" (Hook.with_error "NONE" s),
     [EvSetError "NONE"; EvSetError "NotFoundError"])
  ∧ Hook.hr_error (Hook.hookResult (exec (Hook.startRecording p h) s))
    = Some "no_specified_media_found"
  ∧ Hook.hr_status (Hook.hookResult (exec (Hook.startRecording p h) s))
    = Hook.status s.
Proof.
  intros Hrec Hnone.
  assert (Hook.startRecording p h s
          = (tt, Hook.with_error "NotFoundError" (Hook.with_error "NONE" s),
             [EvSetError "NONE"; EvSetError "NotFoundError"])) as Hstart.
  { hook_unfold; unfold Hook.isWebkit; eff_red. rewrite Hrec; simpl.
    by rewrite Hnone. }
  split; [done |]. unfold exec. by rewrite Hstart.
Qed.

Lemma fallback_start_without_encoder_witness :
  Hook.hr_error
    (Hook.hookResult (exec (Hook.startRecording defaultProps legacyHost) Hook.initial))
  = Some "no_specified_media_found"
  ∧ Hook.hr_status
      (Hook.hookResult (exec (Hook.startRecording defaultProps legacyHost) Hook.initial))
    = Hook.idle.
Proof.
  destruct (fallback_start_without_encoder defaultProps legacyHost Hook.initial
              eq_refl eq_refl) as (_ & Herr & Hstatus).
  split; [exact Herr | exact Hstatus].
Defined.

(** X21: a recorder error makes the caller see status [idle] and the error
    [recorder_error], and tears nothing down: stream, recorder ref, chunk
    buffer, blob and URL stay, so a stop notification arriving afterwards
    still stores the blob of the buffered chunks and calls [onStop], while
    the error shown remains [recorder_error].  Both front ends. *)
Theorem recorder_error_keeps_the_recording (p : Props) (h : Host) :
  (∀ s : RenderProp.State,
     let s' := exec RenderProp.onRecorderError s in
     RenderProp.rp_status (RenderProp.render s') = RenderProp.idle
     ∧ RenderProp.rp_error (RenderProp.render s') = Some "recorder_error"
     ∧ RenderProp.with_error (RenderProp.error s)
         (RenderProp.with_status (RenderProp.status s) s') = s
     ∧ RenderProp.rp_mediaBlob
         (RenderProp.render (exec (RenderProp.onRecordingStop p h) s'))
       = Some (newBlob (RenderProp.mediaChunks s) (blobProperty p))
     ∧ RenderProp.rp_error
         (RenderProp.render (exec (RenderProp.onRecordingStop p h) s'))
       = Some "recorder_error")
  ∧ (∀ s : Hook.State,
     let s' := exec Hook.onRecorderError s in
     Hook.hr_status (Hook.hookResult s') = Hook.idle
     ∧ Hook.hr_error (Hook.hookResult s') = Some "recorder_error"
     ∧ Hook.with_error (Hook.error s) (Hook.with_status (Hook.status s) s') = s
     ∧ Hook.hr_mediaBlob (Hook.hookResult (exec (Hook.onRecordingStop p h) s'))
       = Some (newBlob (Hook.mediaChunks s) (blobProperty p))
     ∧ Hook.hr_error (Hook.hookResult (exec (Hook.onRecordingStop p h) s'))
       = Some "recorder_error").
Proof.
  split; intros s; cbv zeta.
  - rp_unfold; eff_red; simpl. by destruct s.
  - hook_unfold; eff_red; simpl. by destruct s.
Qed.
